(** * D++ shard runtime: slash commands, interactions, event decoders,
      outbound queue and voice connections.

    A shallow embedding of
      - [src/dpp/slashcommand.cpp] / [include/dpp/slashcommand.h]
        (slashcommand::build_json, interaction::fill_from_json,
         interaction_response::fill_from_json / build_json),
      - the event decoders message_reaction_add::handle and
        user_update::handle,
      - the parts of [include/dpp/discordclient.h] whose bodies live in
        discordclient.cpp (QueueMessage, OneSecondTimer, voiceconn).

    JSON values follow nlohmann::json: objects are std::map (unique keys,
    equality independent of insertion order), so they are stdpp [gmap]s. *)

From Stdlib Require Import ZArith String List Lia Bool DecimalString.
From stdpp Require Import base option list gmap strings.

#[local] Set Warnings "-register-all".
#[local] Open Scope string_scope.
#[local] Open Scope Z_scope.

(** ** Exceptions *)

(** The C++ exceptions the modelled code can raise: std::bad_variant_access
    from std::get, nlohmann's type_error (with its numeric id) and
    parse_error. *)
Inductive exn : Type :=
  | bad_variant_access
  | type_error (id : Z)
  | parse_error (id : Z).

Inductive outcome (A : Type) : Type :=
  | Ok (a : A)
  | Throw (e : exn).
Arguments Ok {A} a.
Arguments Throw {A} e.

#[global] Instance outcome_ret : MRet outcome := fun A a => Ok a.
#[global] Instance outcome_bind : MBind outcome := fun A B f m =>
  match m with
  | Ok a => f a
  | Throw e => Throw e
  end.
#[global] Instance outcome_fmap : FMap outcome := fun A B f m =>
  match m with
  | Ok a => Ok (f a)
  | Throw e => Throw e
  end.

Definition is_ok {A} (m : outcome A) : bool :=
  match m with Ok _ => true | Throw _ => false end.

(** [raises m e]: the computation [m] ends by throwing [e]. *)
Definition raises {A} (m : outcome A) (e : exn) : Prop := m = Throw e.

(** ** JSON values (nlohmann::json) *)

Module Json.

(** number_integer and number_unsigned compare by value and are one
    constructor; number_float is produced by none of the modelled paths. *)
Inductive json : Type :=
  | JNull
  | JBool (b : bool)
  | JNum (n : Z)
  | JStr (s : string)
  | JArr (l : list json)
  | JObj (m : gmap string json).

Definition is_object (j : json) : bool :=
  match j with JObj _ => true | _ => false end.

Definition is_null (j : json) : bool :=
  match j with JNull => true | _ => false end.

(** [j.find(k)]: an iterator to the member, or [end()] ([None]); on anything
    but an object it is [end()]. *)
Definition find (j : json) (k : string) : option json :=
  match j with
  | JObj m => m !! k
  | _ => None
  end.

(** [j[k]] used as an rvalue/reference: a null [j] silently becomes an object,
    a missing key is inserted holding null; other types raise type_error 305.
    The value read is returned; the member a read may leave behind in [j]
    holds null and is not tracked, a later [set] or [via_ref] writes it. *)
Definition at_key (j : json) (k : string) : outcome json :=
  match j with
  | JNull => Ok JNull
  | JObj m => Ok (default JNull (m !! k))
  | _ => Throw (type_error 305)
  end.

(** [j[k] = v]. *)
Definition set (j : json) (k : string) (v : json) : outcome json :=
  match j with
  | JNull => Ok (JObj {[ k := v ]})
  | JObj m => Ok (JObj (<[ k := v ]> m))
  | _ => Throw (type_error 305)
  end.

(** [j.push_back(v)] with a json argument: anything but null or an array
    raises type_error 308; a null [j] is first turned into an empty array
    ([to_array]), then [v] is copied to the end. *)
Definition to_array (j : json) : outcome json :=
  match j with
  | JNull => Ok (JArr [])
  | JArr l => Ok (JArr l)
  | _ => Throw (type_error 308)
  end.

Definition push_back (j : json) (v : json) : outcome json :=
  a ← to_array j;
  match a with
  | JArr l => Ok (JArr ((l ++ [v])%list))
  | _ => Throw (type_error 308)
  end.

(** [j.erase(it)] for an iterator obtained from [j.find(k)] on an object. *)
Definition erase_key (j : json) (k : string) : json :=
  match j with
  | JObj m => JObj (delete k m)
  | _ => j
  end.

(** Range-for over a json value: the elements of an array, the member values
    of an object in key order (std::map order, bytewise), nothing for null,
    the value itself once for a primitive. *)
Definition key_le (a b : string * json) : bool :=
  String.leb (fst a) (fst b).

Fixpoint insert_by_key (x : string * json) (l : list (string * json)) :=
  match l with
  | [] => [x]
  | y :: l' => if key_le x y then x :: l else y :: insert_by_key x l'
  end.

Definition items (j : json) : list json :=
  match j with
  | JNull => []
  | JArr l => l
  | JObj m => (foldr insert_by_key [] (map_to_list m)).*2
  | _ => [j]
  end.

End Json.
Import Json.

(** ** slashcommand.h / slashcommand.cpp *)

Module SlashCommand.

(** typedef std::variant<std::string, uint32_t, bool, snowflake>
    command_value *)
Inductive command_value : Type :=
  | cv_string (s : string)
  | cv_uint32 (n : Z)
  | cv_bool (b : bool)
  | cv_snowflake (n : Z).

Definition holds_uint32 (v : command_value) : bool :=
  match v with cv_uint32 _ => true | _ => false end.
Definition holds_bool (v : command_value) : bool :=
  match v with cv_bool _ => true | _ => false end.
Definition holds_snowflake (v : command_value) : bool :=
  match v with cv_snowflake _ => true | _ => false end.
Definition holds_string (v : command_value) : bool :=
  match v with cv_string _ => true | _ => false end.

(** std::get<T>: the held value, or std::bad_variant_access. *)
Definition get_uint32 (v : command_value) : outcome Z :=
  match v with cv_uint32 n => Ok n | _ => Throw bad_variant_access end.
Definition get_bool (v : command_value) : outcome bool :=
  match v with cv_bool b => Ok b | _ => Throw bad_variant_access end.
Definition get_uint64 (v : command_value) : outcome Z :=
  match v with cv_snowflake n => Ok n | _ => Throw bad_variant_access end.
Definition get_string (v : command_value) : outcome string :=
  match v with cv_string s => Ok s | _ => Throw bad_variant_access end.

(** std::to_string on an unsigned integer. *)
Definition to_string (n : Z) : string :=
  DecimalString.NilZero.string_of_uint (N.to_uint (Z.to_N n)).

(** enum command_option_type : uint8_t *)
Definition co_sub_command : Z := 1.
Definition co_sub_command_group : Z := 2.
Definition co_string : Z := 3.
Definition co_integer : Z := 4.
Definition co_boolean : Z := 5.
Definition co_user : Z := 6.
Definition co_channel : Z := 7.
Definition co_role : Z := 8.

Record command_option_choice : Type := mk_command_option_choice {
  choice_name : string;
  choice_value : command_value
}.

(** struct command_option, which nests itself through [options]. *)
Inductive command_option : Type :=
  mk_command_option
    (type : Z) (name description : string) (required : bool)
    (choices : list command_option_choice) (options : list command_option).

Definition opt_type (o : command_option) : Z :=
  let 'mk_command_option t _ _ _ _ _ := o in t.
Definition opt_name (o : command_option) : string :=
  let 'mk_command_option _ n _ _ _ _ := o in n.
Definition opt_description (o : command_option) : string :=
  let 'mk_command_option _ _ d _ _ _ := o in d.
Definition opt_required (o : command_option) : bool :=
  let 'mk_command_option _ _ _ r _ _ := o in r.
Definition opt_choices (o : command_option) : list command_option_choice :=
  let 'mk_command_option _ _ _ _ c _ := o in c.
Definition opt_options (o : command_option) : list command_option :=
  let 'mk_command_option _ _ _ _ _ s := o in s.

(** class slashcommand : public managed *)
Record slashcommand : Type := mk_slashcommand {
  sc_id : Z;
  sc_application_id : Z;
  sc_name : string;
  sc_description : string;
  sc_options : list command_option
}.

(** [v.size()] used as a condition. *)
Definition nonempty {A} (l : list A) : bool :=
  match l with [] => false | _ :: _ => true end.

(** [for (auto & x : xs) body], the loop state threaded through the body;
    an exception leaves the loop. *)
Fixpoint for_each {A S} (xs : list A) (s : S) (body : S -> A -> outcome S)
  : outcome S :=
  match xs with
  | [] => Ok s
  | x :: xs' => s' ← body s x; for_each xs' s' body
  end.

(** An update made through a reference [json& r = j[k]]: the member is read,
    changed by [f], and the change is seen in [j]. *)
Definition via_ref (j : json) (k : string) (f : json -> outcome json)
  : outcome json :=
  r ← at_key j k;
  r' ← f r;
  set j k r'.

(** Lines 65-74: one entry of a top-level option's "choices" array. *)
Definition choice_json (choice : command_option_choice) : outcome json :=
  t ← set JNull "name" (JStr (choice_name choice));
  value ← (if holds_uint32 (choice_value choice)
           then JNum <$> get_uint32 (choice_value choice)
           else JStr <$> get_string (choice_value choice));
  set t "value" value.

(** Lines 89-100: the body of the choice loop inside a subcommand; [v] is the
    reference to [o["choices"]], written by key and not pushed to. *)
Definition subcommand_choice_step (v : json) (choice : command_option_choice)
  : outcome json :=
  v ← set v "name" (JStr (choice_name choice));
  value ← (if holds_uint32 (choice_value choice)
           then JNum <$> get_uint32 (choice_value choice)
           else if holds_bool (choice_value choice)
           then JBool <$> get_bool (choice_value choice)
           else if holds_snowflake (choice_value choice)
           then (fun n => JStr (to_string n)) <$> get_uint64 (choice_value choice)
           else JStr <$> get_string (choice_value choice));
  set v "value" value.

(** [r.push_back(j)] where [r] is the reference [j[k]] into the very value
    being pushed: the check and the null-to-array step of push_back act on
    [j[k]] before [j] is copied, so the copy already holds the array. *)
Definition push_back_self (j : json) (k : string) : outcome json :=
  j ← via_ref j k to_array;
  via_ref j k (fun r => push_back r j).

(** Lines 81-102: the sub-object [o] built in one round of the subcommand
    loop.  Its fields are read from the enclosing [opt]. *)
Definition subcommand_object (opt : command_option) : outcome json :=
  o ← set JNull "name" (JStr (opt_name opt));
  o ← set o "description" (JStr (opt_description opt));
  o ← set o "type" (JNum (opt_type opt));
  o ← set o "required" (JBool (opt_required opt));
  if nonempty (opt_choices opt) then
    o ← set o "choices" JNull;
    o ← via_ref o "choices" (fun v =>
           for_each (opt_choices opt) v subcommand_choice_step);
    push_back_self o "choices"
  else Ok o.

(** Lines 80-104: one round of the subcommand loop; the loop state is [n],
    whose "options" member the reference [c] points into.  [o] is dropped
    at the end of the round; what is pushed is [n]. *)
Definition subcommand_step (opt : command_option) (n : json)
    (subcommand : command_option) : outcome json :=
  o ← subcommand_object opt;
  push_back_self n "options".

(** Lines 56-105: the object [n] built for one top-level option. *)
Definition option_json (opt : command_option) : outcome json :=
  n ← set JNull "name" (JStr (opt_name opt));
  n ← set n "description" (JStr (opt_description opt));
  n ← set n "type" (JNum (opt_type opt));
  n ← set n "required" (JBool (opt_required opt));
  n ← (if nonempty (opt_choices opt) then
         n ← set n "choices" JNull;
         for_each (opt_choices opt) n (fun n choice =>
           t ← choice_json choice;
           via_ref n "choices" (fun c => push_back c t))
       else Ok n);
  if nonempty (opt_options opt) then
    n ← set n "options" JNull;
    for_each (opt_options opt) n (subcommand_step opt)
  else Ok n.

(** slashcommand::build_json, up to the final [j.dump()]. *)
Definition build_json_value (sc : slashcommand) (with_id : bool)
  : outcome json :=
  j ← (if with_id then set JNull "id" (JStr (to_string (sc_id sc)))
       else Ok JNull);
  j ← set j "name" (JStr (sc_name sc));
  j ← set j "description" (JStr (sc_description sc));
  if nonempty (sc_options sc) then
    j ← set j "options" JNull;
    for_each (sc_options sc) j (fun j opt =>
      n ← option_json opt;
      via_ref j "options" (fun o => push_back o n))
  else Ok j.

(** The whole function, with [dump] standing for [j.dump()] on the objects
    it serialises.  nlohmann's dump raises type_error 316 on a string that
    is not valid UTF-8; that failure of the last step is not part of
    [dump], so what is said of [build_json] returning is said up to it. *)
Definition build_json (dump : json -> string) (sc : slashcommand)
    (with_id : bool) : outcome string :=
  dump <$> build_json_value sc with_id.

(** The members lines 57-60 give [n], and lines 82-85 give [o]. *)
Definition option_members (opt : command_option) : gmap string json :=
  <[ "required" := JBool (opt_required opt) ]>
    (<[ "type" := JNum (opt_type opt) ]>
       (<[ "description" := JStr (opt_description opt) ]>
          {[ "name" := JStr (opt_name opt) ]})).

(** The values lines 68-72 can serialise: a uint32_t through the first
    branch, a string through std::get<std::string>. *)
Definition string_or_uint32 (choice : command_option_choice) : bool :=
  holds_string (choice_value choice) || holds_uint32 (choice_value choice).

Definition top_level_choices_ok (sc : slashcommand) : bool :=
  forallb (fun opt => forallb string_or_uint32 (opt_choices opt))
          (sc_options sc).

(** enum interaction_response_type.  The field holds whatever number was
    cast into it, so it is kept as its numeric value. *)
Definition ir_pong : Z := 1.
Definition ir_acknowledge : Z := 2.
Definition ir_channel_message : Z := 3.
Definition ir_channel_message_with_source : Z := 4.
Definition ir_deferred_channel_message_with_source : Z := 5.

Section InteractionResponse.

(** dpp::message and its (de)serialisers are defined in message.cpp; the
    json parser and serialiser are nlohmann's. *)
Variable message : Type.
Variable message_build_json : message -> string.
Variable message_fill_from_json : message -> json -> message.
Variable json_parse : string -> outcome json.
Variable dump : json -> string.
Variable Int8NotNull : json -> string -> Z.

(** struct interaction_response; [msg] is an owned, always valid pointer,
    held here by value. *)
Record interaction_response : Type := mk_interaction_response {
  ir_type : Z;
  ir_msg : message
}.

(** interaction_response::fill_from_json *)
Definition ir_fill_from_json (r : interaction_response) (j : json)
  : interaction_response :=
  let type := Int8NotNull j "type" in
  let msg :=
    match find j "data" with
    | Some data => message_fill_from_json (ir_msg r) data
    | None => ir_msg r
    end in
  {| ir_type := type; ir_msg := msg |}.

(** interaction_response::build_json, up to the final [j.dump()]. *)
Definition ir_build_json_value (r : interaction_response) : outcome json :=
  msg_json ← json_parse (message_build_json (ir_msg r));
  j ← set JNull "type" (JNum (ir_type r));
  let msg_json :=
    match find msg_json "channel_id" with
    | Some _ => erase_key msg_json "channel_id"
    | None => msg_json
    end in
  set j "data" msg_json.

Definition ir_build_json (r : interaction_response) : outcome string :=
  dump <$> ir_build_json_value r.

End InteractionResponse.

Arguments mk_interaction_response {message}.
Arguments ir_type {message}.
Arguments ir_msg {message}.
Arguments ir_fill_from_json {message}.
Arguments ir_build_json_value {message}.
Arguments ir_build_json {message}.

(** enum interaction_type; interaction::type is a uint8_t. *)
Definition it_ping : Z := 1.
Definition it_application_command : Z := 2.
Definition it_component_button : Z := 3.

(** struct command_data_option; [options] is declared but never filled. *)
Inductive command_data_option : Type :=
  mk_command_data_option
    (name : string) (type : Z) (value : command_value)
    (options : list command_data_option).

Definition cdo_name (o : command_data_option) : string :=
  let 'mk_command_data_option n _ _ _ := o in n.
Definition cdo_type (o : command_data_option) : Z :=
  let 'mk_command_data_option _ t _ _ := o in t.
Definition cdo_value (o : command_data_option) : command_value :=
  let 'mk_command_data_option _ _ v _ := o in v.
Definition cdo_options (o : command_data_option) : list command_data_option :=
  let 'mk_command_data_option _ _ _ l := o in l.

(** struct command_interaction ([resolved] is an empty struct). *)
Record command_interaction : Type := mk_command_interaction {
  ci_id : Z;
  ci_name : string;
  ci_options : list command_data_option
}.

Record button_interaction : Type := mk_button_interaction {
  bi_component_type : Z;
  bi_custom_id : string
}.

(** std::variant<command_interaction, button_interaction> *)
Inductive interaction_data : Type :=
  | data_command (ci : command_interaction)
  | data_button (bi : button_interaction).

Definition holds_command_interaction (d : interaction_data) : bool :=
  match d with data_command _ => true | data_button _ => false end.
Definition holds_button_interaction (d : interaction_data) : bool :=
  match d with data_button _ => true | data_command _ => false end.

Section Interaction.

(** dpp::guild_member and dpp::user with their decoders (guild.cpp,
    user.cpp), and the field readers of discordevents.cpp. *)
Variables guild_member user : Type.
Variable guild_member_new : guild_member.
Variable user_new : user.
Variable guild_member_fill_from_json : guild_member -> json -> guild_member.
Variable user_fill_from_json : user -> json -> user.
Variable SnowflakeNotNull : json -> string -> Z.
Variable StringNotNull : json -> string -> string.
Variable Int8NotNull : json -> string -> Z.
Variable Int32NotNull : json -> string -> Z.
Variable BoolNotNull : json -> string -> bool.

(** What the locals [command_interaction ci;] and [button_interaction bi;]
    hold in their scalar members before any assignment (indeterminate in
    C++). *)
Variable uninit_snowflake : Z.
Variable uninit_uint8 : Z.

(** class interaction : public managed *)
Record interaction : Type := mk_interaction {
  i_id : Z;
  i_application_id : Z;
  i_type : Z;
  i_data : interaction_data;
  i_guild_id : Z;
  i_channel_id : Z;
  i_member : guild_member;
  i_usr : user;
  i_token : string;
  i_version : Z
}.

(** Lines 179-198: one round of the loop over [param["options"]]; the
    switch has no default, so [value] keeps its default (an empty string). *)
Definition command_data_option_of (opt : json) : command_data_option :=
  let name := StringNotNull opt "name" in
  let type := Int8NotNull opt "type" in
  let value :=
    if type =? co_boolean then cv_bool (BoolNotNull opt "value")
    else if (type =? co_channel) || (type =? co_role) || (type =? co_user)
    then cv_snowflake (SnowflakeNotNull opt "value")
    else if type =? co_integer then cv_uint32 (Int32NotNull opt "value")
    else if type =? co_string then cv_string (StringNotNull opt "value")
    else cv_string "" in
  mk_command_data_option name type value [].

(** Lines 171-202 *)
Definition command_interaction_of (j : json) : outcome command_interaction :=
  let ci := {| ci_id := uninit_snowflake; ci_name := ""; ci_options := [] |} in
  match find j "data" with
  | Some param =>
      let id := SnowflakeNotNull param "id" in
      let name := StringNotNull param "name" in
      options ← match find param "options" with
                | Some opts =>
                    for_each (items opts) (ci_options ci) (fun acc opt =>
                      Ok ((acc ++ [command_data_option_of opt])%list))
                | None => Ok (ci_options ci)
                end;
      Ok {| ci_id := id; ci_name := name; ci_options := options |}
  | None => Ok ci
  end.

(** Lines 204-210 *)
Definition button_interaction_of (j : json) : button_interaction :=
  let bi := {| bi_component_type := uninit_uint8; bi_custom_id := "" |} in
  match find j "data" with
  | Some param =>
      {| bi_component_type := Int8NotNull param "component_type";
         bi_custom_id := StringNotNull param "custom_id" |}
  | None => bi
  end.

(** interaction::fill_from_json.  A raised exception abandons the call;
    the fields assigned before it are not reported. *)
Definition fill_from_json (i : interaction) (j : json) : outcome interaction :=
  let id := SnowflakeNotNull j "id" in
  let application_id := SnowflakeNotNull j "application_id" in
  let channel_id := SnowflakeNotNull j "channel_id" in
  let guild_id := SnowflakeNotNull j "guild_id" in
  let token := StringNotNull j "token" in
  let type := Int8NotNull j "type" in
  let version := Int8NotNull j "version" in
  '(member, usr) ← match find j "member" with
                   | Some m =>
                       let member := guild_member_fill_from_json guild_member_new m in
                       mu ← at_key m "user";
                       Ok (member, user_fill_from_json user_new mu)
                   | None => Ok (i_member i, i_usr i)
                   end;
  let usr := match find j "user" with
             | Some u => user_fill_from_json user_new u
             | None => usr
             end in
  data ← (if type =? it_application_command then
            data_command <$> command_interaction_of j
          else if type =? it_component_button then
            Ok (data_button (button_interaction_of j))
          else Ok (i_data i));
  Ok {| i_id := id; i_application_id := application_id; i_type := type;
        i_data := data; i_guild_id := guild_id; i_channel_id := channel_id;
        i_member := member; i_usr := usr; i_token := token;
        i_version := version |}.

(** A default-constructed interaction's [data]: std::variant
    value-initialises its first alternative. *)
Definition interaction_data_new : interaction_data :=
  data_command {| ci_id := 0; ci_name := ""; ci_options := [] |}.

End Interaction.

Arguments mk_interaction {guild_member user}.
Arguments i_id {guild_member user}.
Arguments i_application_id {guild_member user}.
Arguments i_type {guild_member user}.
Arguments i_data {guild_member user}.
Arguments i_guild_id {guild_member user}.
Arguments i_channel_id {guild_member user}.
Arguments i_member {guild_member user}.
Arguments i_usr {guild_member user}.
Arguments i_token {guild_member user}.
Arguments i_version {guild_member user}.
Arguments fill_from_json {guild_member user}.

End SlashCommand.

(** ** Event decoders: message_reaction_add::handle, user_update::handle *)

Module Events.

Section Decoders.

(** The cached entity types (guild.h, user.h, channel.h, emoji.h) and the
    helpers of user.cpp and discordevents.cpp the decoders call. *)
Variables guild user channel emoji : Type.
Variable user_fill_from_json : user -> json -> user.
Variable SnowflakeNotNull : json -> string -> Z.

(** Modelled from the spec: the object cache (cache.cpp, absent).  "The
    core only requires a lookup/insert/remove interface keyed by a 64-bit
    snowflake"; find_guild, find_user, find_channel and find_emoji "by
    snowflake; each returns a borrow or null".  A borrow is the key of the
    entry it points to, null is [None]. *)
Record cache : Type := mk_cache {
  guilds : gmap Z guild;
  users : gmap Z user;
  channels : gmap Z channel;
  emojis : gmap Z emoji
}.

Definition find_guild (c : cache) (id : Z) : option Z :=
  (fun _ => id) <$> guilds c !! id.
Definition find_user (c : cache) (id : Z) : option Z :=
  (fun _ => id) <$> users c !! id.
Definition find_channel (c : cache) (id : Z) : option Z :=
  (fun _ => id) <$> channels c !! id.
Definition find_emoji (c : cache) (id : Z) : option Z :=
  (fun _ => id) <$> emojis c !! id.

(** class dispatcher: one std::function slot per event kind; a slot is
    either empty or holds user code. *)
Record dispatcher : Type := mk_dispatcher {
  message_reaction_add : bool;
  user_update : bool
}.

Record cluster : Type := mk_cluster { dispatch : dispatcher }.

Record DiscordClient : Type := mk_DiscordClient {
  shard_id : Z;
  creator : cluster
}.

(** struct message_reaction_add_t : event_dispatch_t *)
Record message_reaction_add_t : Type := mk_message_reaction_add_t {
  mra_raw_event : string;
  mra_from : DiscordClient;
  reacting_guild : option Z;
  reacting_user : option Z;
  reacting_channel : option Z;
  reacting_emoji : option Z;
  message_id : Z
}.

(** struct user_update_t : event_dispatch_t *)
Record user_update_t : Type := mk_user_update_t {
  uu_raw_event : string;
  uu_from : DiscordClient;
  updated : option Z
}.

(** A handler is user code; running a decoder yields the calls it makes to
    the registered handlers, with their arguments, in order. *)
Inductive call : Type :=
  | call_message_reaction_add (ev : message_reaction_add_t)
  | call_user_update (ev : user_update_t).

(** message_reaction_add::handle.  The cache is only read. *)
Definition message_reaction_add_handle (client : DiscordClient) (c : cache)
    (j : json) (raw : string) : outcome (list call) :=
  if message_reaction_add (dispatch (creator client)) then
    d ← at_key j "d";
    let reacting_guild := find_guild c (SnowflakeNotNull d "guild_id") in
    let reacting_user := find_user c (SnowflakeNotNull d "user_id") in
    let reacting_channel := find_channel c (SnowflakeNotNull d "channel_id") in
    let message_id := SnowflakeNotNull d "message_id" in
    e ← at_key d "emoji";
    let reacting_emoji := find_emoji c (SnowflakeNotNull e "id") in
    let mra :=
      {| mra_raw_event := raw; mra_from := client;
         reacting_guild := reacting_guild; reacting_user := reacting_user;
         reacting_channel := reacting_channel;
         reacting_emoji := reacting_emoji; message_id := message_id |} in
    if bool_decide (is_Some reacting_user)
       && bool_decide (is_Some reacting_channel)
       && negb (message_id =? 0)
    then Ok [call_message_reaction_add mra]
    else Ok []
  else Ok [].

(** user_update::handle.  [u->fill_from_json(&d)] writes the cache entry
    [u] points to; the decoder returns the cache it leaves and the calls
    it made. *)
Definition user_update_handle (client : DiscordClient) (c : cache)
    (j : json) (raw : string) : outcome (cache * list call) :=
  d ← at_key j "d";
  let user_id := SnowflakeNotNull d "id" in
  if negb (user_id =? 0) then
    match find_user c user_id with
    | Some p =>
        match users c !! p with
        | Some u =>
            let c' := {| guilds := guilds c;
                         users := <[ p := user_fill_from_json u d ]> (users c);
                         channels := channels c;
                         emojis := emojis c |} in
            if user_update (dispatch (creator client)) then
              let uu := {| uu_raw_event := raw; uu_from := client;
                           updated := Some p |} in
              Ok (c', [call_user_update uu])
            else Ok (c', [])
        | None => Ok (c, [])
        end
    | None => Ok (c, [])
    end
  else Ok (c, []).

End Decoders.

Arguments mk_cache {guild user channel emoji}.
Arguments guilds {guild user channel emoji}.
Arguments users {guild user channel emoji}.
Arguments channels {guild user channel emoji}.
Arguments emojis {guild user channel emoji}.
Arguments find_guild {guild user channel emoji}.
Arguments find_user {guild user channel emoji}.
Arguments find_channel {guild user channel emoji}.
Arguments find_emoji {guild user channel emoji}.
Arguments message_reaction_add_handle {guild user channel emoji}.
Arguments user_update_handle {guild user channel emoji}.

End Events.

(** ** discordclient.h: outbound queue, heartbeat tick, voice connections *)

Module Shard.

(** *** Outbound queue *)

(** Modelled from the spec: the OutboundQueue of section 3, "ordered sequence
    of serialized payloads with priority head/tail", which 4.4.3 describes as
    "Two logical lanes within a single deque".  The header's
    [std::deque<std::string> message_queue] holds the head lane followed by
    the tail lane, front first. *)
Record OutboundQueue : Type := mk_OutboundQueue {
  head_lane : list string;
  tail_lane : list string
}.

Definition empty_queue : OutboundQueue :=
  {| head_lane := []; tail_lane := [] |}.


(** Modelled from the spec: DiscordClient::QueueMessage, declared in
    discordclient.h with its body in discordclient.cpp (absent).  Spec 4.4.3:
    "priority sends are placed at the head [...], normal sends at the tail";
    section 3: "priority (HEAD) sends precede all non-priority, but preserve
    arrival order within each class".  A priority message goes to the head
    lane, behind the priority messages already waiting and ahead of every
    normal message; the declaration's "will place the message at the front
    of the queue not the back" names that lane. *)
Definition QueueMessage (message_queue : OutboundQueue) (j : string)
    (to_front : bool) : OutboundQueue :=
  if to_front
  then {| head_lane := (head_lane message_queue ++ [j])%list;
          tail_lane := tail_lane message_queue |}
  else {| head_lane := head_lane message_queue;
          tail_lane := (tail_lane message_queue ++ [j])%list |}.








(** *** Heartbeat tick *)

(** Modelled from the spec: the gateway shard states of section 4.4. *)
Inductive gateway_state : Type :=
  | DISCONNECTED
  | CONNECTING
  | HELLO_WAIT
  | IDENTIFYING
  | RESUMING
  | READY
  | HEARTBEAT_WAIT
  | RECONNECTING.

(** The shard fields the tick reads and writes.  The header names them
    [heartbeat_interval], [last_heartbeat] (the spec's last_heartbeat_sent),
    [last_heartbeat_ack], [last_seq], [reconnects] and [message_queue];
    [state] and [zombied] are the spec's. *)
Record shard : Type := mk_shard {
  state : gateway_state;
  heartbeat_interval : Z;
  last_heartbeat_sent : Z;
  last_heartbeat_ack : Z;
  last_seq : Z;
  reconnects : Z;
  zombied : bool;
  message_queue : OutboundQueue
}.

Definition after_hello (s : shard) : bool :=
  match state s with
  | IDENTIFYING | RESUMING | READY | HEARTBEAT_WAIT => true
  | _ => false
  end.

Section Tick.

(** The serialised heartbeat, op 1 with [d = last_sequence]. *)
Variable heartbeat_payload : Z -> string.

(** Modelled from the spec: the first sentence of 4.4.2, "if now -
    last_heartbeat_sent >= heartbeat_interval_ms then push a heartbeat
    (priority) with last_sequence; set last_heartbeat_sent". *)
Definition send_due_heartbeat (now : Z) (s : shard) : shard :=
  if heartbeat_interval s <=? now - last_heartbeat_sent s then
    {| state := state s;
       heartbeat_interval := heartbeat_interval s;
       last_heartbeat_sent := now;
       last_heartbeat_ack := last_heartbeat_ack s;
       last_seq := last_seq s;
       reconnects := reconnects s;
       zombied := zombied s;
       message_queue :=
         QueueMessage (message_queue s) (heartbeat_payload (last_seq s)) true |}
  else s.

(** Modelled from the spec: "the shard is declared zombied and the
    connection is forcibly reset"; the reset enters RECONNECTING and counts
    as a reconnect (4.4.4, scenario S4). *)
Definition force_reconnect (s : shard) : shard :=
  {| state := RECONNECTING;
     heartbeat_interval := heartbeat_interval s;
     last_heartbeat_sent := last_heartbeat_sent s;
     last_heartbeat_ack := last_heartbeat_ack s;
     last_seq := last_seq s;
     reconnects := reconnects s + 1;
     zombied := true;
     message_queue := message_queue s |}.

Definition is_zombie (s : shard) : bool :=
  last_heartbeat_ack s <? last_heartbeat_sent s - heartbeat_interval s.

(** Modelled from the spec: DiscordClient::OneSecondTimer (body in
    discordclient.cpp, absent), the heartbeat loop of 4.4.2: "On every
    one-second tick after HELLO: [...] If last_heartbeat_ack <
    last_heartbeat_sent - heartbeat_interval_ms (zombie), force
    reconnect." *)
Definition OneSecondTimer (now : Z) (s : shard) : shard :=
  if after_hello s then
    let s1 := send_due_heartbeat now s in
    if is_zombie s1 then force_reconnect s1 else s1
  else s.

End Tick.

(** *** Voice connections *)






End Shard.

(** ** slashcommand.cpp: constructors, setters and the remaining members *)

Module Api.
Import SlashCommand.

Section Fill.

Variable SnowflakeNotNull : json -> string -> Z.

(** slashcommand::fill_from_json (lines 40-43): only [id] is read. *)
Definition slashcommand_fill_from_json (sc : slashcommand) (j : json)
  : slashcommand :=
  {| sc_id := SnowflakeNotNull j "id";
     sc_application_id := sc_application_id sc;
     sc_name := sc_name sc;
     sc_description := sc_description sc;
     sc_options := sc_options sc |}.

End Fill.

(** slashcommand::set_name, set_description, set_application_id *)
Definition set_name (sc : slashcommand) (n : string) : slashcommand :=
  {| sc_id := sc_id sc; sc_application_id := sc_application_id sc;
     sc_name := n; sc_description := sc_description sc;
     sc_options := sc_options sc |}.

Definition set_description (sc : slashcommand) (d : string) : slashcommand :=
  {| sc_id := sc_id sc; sc_application_id := sc_application_id sc;
     sc_name := sc_name sc; sc_description := d;
     sc_options := sc_options sc |}.

Definition set_application_id (sc : slashcommand) (i : Z) : slashcommand :=
  {| sc_id := sc_id sc; sc_application_id := i;
     sc_name := sc_name sc; sc_description := sc_description sc;
     sc_options := sc_options sc |}.

(** slashcommand::add_option: [options.push_back(o)]. *)
Definition add_option (sc : slashcommand) (o : command_option) : slashcommand :=
  {| sc_id := sc_id sc; sc_application_id := sc_application_id sc;
     sc_name := sc_name sc; sc_description := sc_description sc;
     sc_options := (sc_options sc ++ [o])%list |}.

(** command_option_choice::command_option_choice(n, v) *)
Definition new_command_option_choice (n : string) (v : command_value)
  : command_option_choice :=
  {| choice_name := n; choice_value := v |}.

(** command_option::command_option(t, n, d, r): the two vectors start
    empty. *)
Definition new_command_option (t : Z) (n d : string) (r : bool)
  : command_option :=
  mk_command_option t n d r [] [].

(** command_option::add_choice: [choices.push_back(o)]. *)
Definition add_choice (opt : command_option) (o : command_option_choice)
  : command_option :=
  mk_command_option (opt_type opt) (opt_name opt) (opt_description opt)
    (opt_required opt) ((opt_choices opt ++ [o])%list) (opt_options opt).

(** command_option::add_option: [options.push_back(o)]. *)
Definition add_suboption (opt : command_option) (o : command_option)
  : command_option :=
  mk_command_option (opt_type opt) (opt_name opt) (opt_description opt)
    (opt_required opt) (opt_choices opt) ((opt_options opt ++ [o])%list).

(** interaction_response::interaction_response(t, m) *)
Definition new_interaction_response {message : Type} (t : Z) (m : message)
  : interaction_response message :=
  {| ir_type := t; ir_msg := m |}.

(** *** What the builders are compared with *)

(** A value can be indexed with a key when it is an object or null. *)
Definition indexable (j : json) : bool := is_object j || is_null j.

(** The monadic map the two push loops of build_json perform: the results of
    [g] on the elements, in order, or the first exception. *)
Fixpoint collect {A B} (g : A -> outcome B) (xs : list A) : outcome (list B) :=
  match xs with
  | [] => Ok []
  | x :: xs' => y ← g x; ys ← collect g xs'; Ok (y :: ys)
  end.

(** The entry a choice holding a string or a uint32_t gets in "choices". *)
Definition choice_value_json (v : command_value) : json :=
  match v with
  | cv_string s => JStr s
  | cv_uint32 n => JNum n
  | cv_bool b => JBool b
  | cv_snowflake n => JStr (to_string n)
  end.

Definition choice_entry (choice : command_option_choice) : json :=
  JObj (<[ "value" := choice_value_json (choice_value choice) ]>
          {[ "name" := JStr (choice_name choice) ]}).

(** The members of the command object other than "options". *)
Definition command_members (sc : slashcommand) (with_id : bool)
  : gmap string json :=
  <[ "description" := JStr (sc_description sc) ]>
    (<[ "name" := JStr (sc_name sc) ]>
       (if with_id then {[ "id" := JStr (to_string (sc_id sc)) ]} else ∅)).

(** What [k] rounds of [c.push_back(n)] leave in [n["options"]]: each round
    appends a copy of [n] as it is then. *)
Fixpoint self_copies (base : gmap string json) (k : nat) : list json :=
  match k with
  | O => []
  | S k' =>
      let prev := self_copies base k' in
      (prev ++ [JObj (<[ "options" := JArr prev ]> base)])%list
  end.

(** The members of an option's object once its choices are in. *)
Definition option_with_choices (opt : command_option) : gmap string json :=
  if nonempty (opt_choices opt)
  then <[ "choices" := JArr (choice_entry <$> opt_choices opt) ]>
         (option_members opt)
  else option_members opt.

(** The object build_json emits for an option it can serialise. *)
Definition option_value (opt : command_option) : json :=
  if nonempty (opt_options opt)
  then JObj (<[ "options" :=
                 JArr (self_copies (option_with_choices opt)
                         (length (opt_options opt))) ]>
               (option_with_choices opt))
  else JObj (option_with_choices opt).

(** The outcome of serialising one option: a choice that holds neither a
    string nor a uint32_t, then choices together with nested options. *)
Definition option_outcome (opt : command_option) : outcome json :=
  if negb (forallb string_or_uint32 (opt_choices opt))
  then Throw bad_variant_access
  else if nonempty (opt_choices opt) && nonempty (opt_options opt)
  then Throw (type_error 308)
  else Ok (option_value opt).

Definition option_buildable (opt : command_option) : bool :=
  forallb string_or_uint32 (opt_choices opt)
  && negb (nonempty (opt_choices opt) && nonempty (opt_options opt)).

Definition buildable (sc : slashcommand) : bool :=
  forallb option_buildable (sc_options sc).

(** The entries of the "options" array of an emitted object. *)
Definition emitted_options (j : json) : list json :=
  match find j "options" with
  | Some (JArr l) => l
  | _ => []
  end.

(** The entries of the "choices" array of an emitted option object. *)
Definition emitted_choices (n : json) : list json :=
  match find n "choices" with
  | Some (JArr l) => l
  | _ => []
  end.

(** The alternative a decoded command parameter holds, by its type. *)
Definition value_fits_type (o : command_data_option) : bool :=
  if cdo_type o =? co_boolean then holds_bool (cdo_value o)
  else if (cdo_type o =? co_channel) || (cdo_type o =? co_role)
          || (cdo_type o =? co_user)
  then holds_snowflake (cdo_value o)
  else if cdo_type o =? co_integer then holds_uint32 (cdo_value o)
  else if cdo_type o =? co_string then holds_string (cdo_value o)
  else match cdo_value o with cv_string "" => true | _ => false end.

End Api.

(** ** Stand-ins for the absent collaborators

    Concrete instances of the field readers and of the message serialiser,
    used to run the decoders and builders on concrete documents. *)

Module TestDoubles.

(** The leading decimal digits of a string, as strtoull reads them. *)
Fixpoint digits_value (s : string) (acc : Z) : Z :=
  match s with
  | EmptyString => acc
  | String a s' =>
      let n := Z.of_nat (Ascii.nat_of_ascii a) in
      if (48 <=? n) && (n <=? 57) then digits_value s' (10 * acc + (n - 48))
      else acc
  end.

(** Snowflakes travel as decimal strings. *)
Definition SnowflakeNotNull (j : json) (k : string) : Z :=
  match find j k with
  | Some (JStr s) => digits_value s 0
  | _ => 0
  end.

Definition StringNotNull (j : json) (k : string) : string :=
  match find j k with
  | Some (JStr s) => s
  | _ => ""
  end.

Definition Int8NotNull (j : json) (k : string) : Z :=
  match find j k with
  | Some (JNum n) => n mod 256
  | _ => 0
  end.

Definition Int32NotNull (j : json) (k : string) : Z :=
  match find j k with
  | Some (JNum n) => n mod 2 ^ 32
  | _ => 0
  end.

Definition BoolNotNull (j : json) (k : string) : bool :=
  match find j k with
  | Some (JBool b) => b
  | _ => false
  end.

(** A message reduced to its content and channel.  The wire text is not
    spelled out: the serialiser hands over the content and the parser
    returns the document a message with that content serialises to. *)
Record message : Type := mk_message {
  content : string;
  msg_channel_id : Z
}.

Definition message_build_json (m : message) : string := content m.

Definition json_parse (s : string) : outcome json :=
  Ok (JObj {[ "channel_id" := JStr "9"; "content" := JStr s; "tts" := JBool false ]}).

Definition message_fill_from_json (m : message) (j : json) : message :=
  {| content := StringNotNull j "content";
     msg_channel_id := SnowflakeNotNull j "channel_id" |}.

(** A user reduced to its name, a guild member to its nickname. *)
Definition user_fill_from_json (u : string) (j : json) : string :=
  StringNotNull j "username".

Definition guild_member_fill_from_json (g : string) (j : json) : string :=
  StringNotNull j "nick".

End TestDoubles.

(** ** Sample inputs *)

Module Samples.
Import SlashCommand.

(** A command whose option "parent" nests one subcommand option "child". *)
Definition child : command_option :=
  mk_command_option co_string "child" "the nested one" true [] [].
Definition parent : command_option :=
  mk_command_option co_sub_command "parent" "the enclosing one" false [] [child].
Definition sc_nested : slashcommand :=
  {| sc_id := 7; sc_application_id := 1; sc_name := "cmd";
     sc_description := "a command"; sc_options := [parent] |}.

(** Commands whose only option offers one choice. *)
Definition sc_with_choice (v : command_value) : slashcommand :=
  {| sc_id := 7; sc_application_id := 1; sc_name := "cmd";
     sc_description := "a command";
     sc_options :=
       [mk_command_option co_string "colour" "pick one" true
          [{| choice_name := "red"; choice_value := v |}] []] |}.

Definition dump (j : json) : string := "{...}".

(** A reply carrying a deprecated response type. *)
Definition reply : TestDoubles.message :=
  {| TestDoubles.content := "pong"; TestDoubles.msg_channel_id := 9 |}.
Definition deprecated_response : interaction_response TestDoubles.message :=
  {| ir_type := ir_acknowledge; ir_msg := reply |}.

(** A freshly constructed interaction, and a ping as the gateway sends it. *)
Definition interaction_new : interaction string string :=
  {| i_id := 0; i_application_id := 0; i_type := 0;
     i_data := interaction_data_new; i_guild_id := 0; i_channel_id := 0;
     i_member := ""; i_usr := ""; i_token := ""; i_version := 0 |}.
Definition ping_json : json :=
  JObj {[ "id" := JStr "77"; "type" := JNum it_ping; "version" := JNum 1;
          "token" := JStr "tok" ]}.
Definition command_json : json :=
  JObj {[ "id" := JStr "78"; "type" := JNum it_application_command;
          "data" := JObj {[ "id" := JStr "5"; "name" := JStr "blep" ]} ]}.

Definition command_filled : interaction string string :=
  {| i_id := 78; i_application_id := 0; i_type := it_application_command;
     i_data := data_command {| ci_id := 5; ci_name := "blep"; ci_options := [] |};
     i_guild_id := 0; i_channel_id := 0;
     i_member := ""; i_usr := ""; i_token := ""; i_version := 0 |}.

(** A cache holding user 5 and channel 9, a shard with both handlers set, one
    with none, and dispatches as the gateway sends them. *)
Definition sample_cache : Events.cache unit string unit unit :=
  {| Events.guilds := ∅; Events.users := {[ 5 := "old name" ]};
     Events.channels := {[ 9 := tt ]}; Events.emojis := ∅ |}.
Definition listening : Events.DiscordClient :=
  {| Events.shard_id := 0;
     Events.creator :=
       {| Events.dispatch :=
            {| Events.message_reaction_add := true;
               Events.user_update := true |} |} |}.
Definition silent : Events.DiscordClient :=
  {| Events.shard_id := 0;
     Events.creator :=
       {| Events.dispatch :=
            {| Events.message_reaction_add := false;
               Events.user_update := false |} |} |}.
Definition reaction_d : json :=
  JObj {[ "user_id" := JStr "5"; "channel_id" := JStr "9";
          "message_id" := JStr "11";
          "emoji" := JObj {[ "name" := JStr "tada" ]} ]}.
Definition reaction_dispatch : json :=
  JObj {[ "op" := JNum 0; "t" := JStr "MESSAGE_REACTION_ADD";
          "d" := reaction_d ]}.
Definition user_d : json :=
  JObj {[ "id" := JStr "5"; "username" := JStr "new name" ]}.
Definition user_dispatch : json :=
  JObj {[ "op" := JNum 0; "t" := JStr "USER_UPDATE"; "d" := user_d ]}.



(** A shard whose last heartbeat, sent at 5000 with a 1000 ms interval, was
    never acknowledged after 3000. *)
Definition stale_shard : Shard.shard :=
  {| Shard.state := Shard.READY; Shard.heartbeat_interval := 1000;
     Shard.last_heartbeat_sent := 5000; Shard.last_heartbeat_ack := 3000;
     Shard.last_seq := 42; Shard.reconnects := 0; Shard.zombied := false;
     Shard.message_queue := Shard.empty_queue |}.
Definition heartbeat_payload (seq : Z) : string := "heartbeat".

(** interaction::fill_from_json over the stand-in readers. *)
Definition fill (i : interaction string string) (j : json)
  : outcome (interaction string string) :=
  fill_from_json "" "" TestDoubles.guild_member_fill_from_json
    TestDoubles.user_fill_from_json TestDoubles.SnowflakeNotNull
    TestDoubles.StringNotNull TestDoubles.Int8NotNull
    TestDoubles.Int32NotNull TestDoubles.BoolNotNull 0 0 i j.

End Samples.

Module MoreSamples.
Import SlashCommand Api.

(** An option built with the constructors: two choices, no nested option. *)
Definition colour : command_option :=
  add_choice
    (add_choice (new_command_option co_string "colour" "pick one" true)
       (new_command_option_choice "red" (cv_string "r")))
    (new_command_option_choice "seven" (cv_uint32 7)).

(** An option with a choice and a nested option. *)
Definition crowded : command_option :=
  add_suboption colour (new_command_option co_integer "n" "a number" false).

Definition sc_colour : slashcommand :=
  add_option
    (set_description
       (set_name {| sc_id := 7; sc_application_id := 1; sc_name := "";
                    sc_description := ""; sc_options := [] |} "paint")
       "paints things")
    colour.

Definition sc_crowded : slashcommand := add_option sc_colour crowded.

(** An application command sent from a guild: a member with its user, a
    top-level user, and two parameters, the second a sub-command. *)
Definition guild_command_json : json :=
  JObj {[ "id" := JStr "79"; "type" := JNum it_application_command;
          "member" := JObj {[ "nick" := JStr "nick";
                              "user" := JObj {[ "username" := JStr "inner" ]} ]};
          "user" := JObj {[ "username" := JStr "outer" ]};
          "data" := JObj {[ "id" := JStr "5"; "name" := JStr "blep";
                            "options" :=
                              JArr [ JObj {[ "name" := JStr "flag";
                                             "type" := JNum co_boolean;
                                             "value" := JBool true ]};
                                     JObj {[ "name" := JStr "sub";
                                             "type" := JNum co_sub_command ]} ]
                          ]} ]}.

Definition guild_command_filled : interaction string string :=
  {| i_id := 79; i_application_id := 0; i_type := it_application_command;
     i_data := data_command
                 {| ci_id := 5; ci_name := "blep";
                    ci_options :=
                      [ mk_command_data_option "flag" co_boolean (cv_bool true) [];
                        mk_command_data_option "sub" co_sub_command
                          (cv_string "") [] ] |};
     i_guild_id := 0; i_channel_id := 0;
     i_member := "nick"; i_usr := "outer"; i_token := ""; i_version := 0 |}.

(** Two replies that differ in their channel only. *)
Definition parse_with_channel (s : string) : outcome json :=
  Ok (JObj {[ "channel_id" := JStr s; "content" := JStr "pong" ]}).
Definition reply_in (channel : string) : interaction_response string :=
  new_interaction_response ir_channel_message_with_source channel.

End MoreSamples.

(** * Properties *)

(** ** Exceptions and loops *)

Ltac conjuncts := repeat match goal with |- _ /\ _ => split end.

Lemma bind_Ok {A B} (m : outcome A) (f : A -> outcome B) (b : B) :
  m ≫= f = Ok b -> exists a, m = Ok a /\ f a = Ok b.
Proof.
  destruct m as [a|e]; cbn; [eauto | discriminate].
Qed.

Lemma bind_not_ok {A B} (m : outcome A) (f : A -> outcome B) :
  is_ok m = false -> is_ok (m ≫= f) = false.
Proof. destruct m; cbn; [discriminate | reflexivity]. Qed.

Lemma fmap_Ok {A B} (g : A -> B) (m : outcome A) (b : B) :
  g <$> m = Ok b -> exists a, m = Ok a /\ b = g a.
Proof.
  destruct m as [a|e]; cbn; [intros [= <-]; eauto | discriminate].
Qed.

Lemma raises_bind {A B} (m : outcome A) (f : A -> outcome B) e :
  raises (m ≫= f) e ->
  raises m e \/ exists a, m = Ok a /\ raises (f a) e.
Proof.
  unfold raises. destruct m as [a|e']; cbn; intros H.
  - right. exists a. split; [reflexivity | exact H].
  - left. injection H as ->. reflexivity.
Qed.

Lemma raises_fmap {A B} (g : A -> B) (m : outcome A) e :
  raises (g <$> m) e -> raises m e.
Proof.
  unfold raises. destruct m as [a|e']; cbn; [discriminate |].
  intros [= ->]. reflexivity.
Qed.

Module Loops.
Import SlashCommand.

(** A loop that throws [e] does so in the round of one of its elements. *)
Lemma for_each_raises {A S} (xs : list A) (body : S -> A -> outcome S) s e :
  raises (for_each xs s body) e ->
  exists x s0, x ∈ xs /\ raises (body s0 x) e.
Proof.
  revert s. induction xs as [|x xs IH]; intros s H; cbn in H.
  - discriminate H.
  - apply raises_bind in H as [H | (s' & _ & H)].
    + exists x, s. split; [left | exact H].
    + destruct (IH _ H) as (y & s0 & Hy & Hr).
      exists y, s0. split; [right; exact Hy | exact Hr].
Qed.

(** A loop one of whose rounds cannot complete does not complete. *)
Lemma for_each_stuck {A S} (xs : list A) (body : S -> A -> outcome S) s x :
  x ∈ xs -> (forall s0, is_ok (body s0 x) = false) ->
  is_ok (for_each xs s body) = false.
Proof.
  intros Hin Hx. revert s.
  induction xs as [|y xs IH]; intros s.
  - inversion Hin.
  - cbn. apply elem_of_cons in Hin as [<- | Hin].
    + apply bind_not_ok, Hx.
    + destruct (body s y) as [s'|e']; cbn; [apply IH, Hin | reflexivity].
Qed.

End Loops.

(** ** slashcommand::build_json *)

Module BuildJson.
Import SlashCommand Loops.

Lemma forallb_false {A} (f : A -> bool) (l : list A) :
  forallb f l = false -> exists x, x ∈ l /\ f x = false.
Proof.
  induction l as [|y l IH]; cbn; [discriminate |].
  destruct (f y) eqn:Hy; cbn.
  - intros H. destruct (IH H) as (x & Hx & Hf).
    exists x. split; [right; exact Hx | exact Hf].
  - intros _. exists y. split; [left | exact Hy].
Qed.

Lemma nonempty_elem {A} (x : A) (l : list A) : x ∈ l -> nonempty l = true.
Proof. destruct l; [inversion 1 | reflexivity]. Qed.

(** The json primitives raise type_error only. *)
Lemma set_not_bva j k v : ~ raises (set j k v) bad_variant_access.
Proof. destruct j; discriminate. Qed.

Lemma at_key_not_bva j k : ~ raises (at_key j k) bad_variant_access.
Proof. destruct j; discriminate. Qed.

Lemma to_array_not_bva j : ~ raises (to_array j) bad_variant_access.
Proof. destruct j; discriminate. Qed.

Lemma push_back_not_bva j v : ~ raises (push_back j v) bad_variant_access.
Proof. destruct j; discriminate. Qed.

Lemma Ok_not_raises {A} (a : A) e : ~ raises (Ok a) e.
Proof. discriminate. Qed.

Ltac primitive_not_bva :=
  first [ apply set_not_bva | apply at_key_not_bva | apply to_array_not_bva
        | apply push_back_not_bva | apply Ok_not_raises ].

Ltac raise_cases H :=
  repeat match type of H with
  | raises (_ ≫= _) _ => apply raises_bind in H as [H | (? & _ & H)]
  | raises (_ <$> _) _ => apply raises_fmap in H
  | raises (if ?b then _ else _) _ => destruct b eqn:?
  end.

Ltac close_raise H :=
  solve [ exfalso; revert H; primitive_not_bva ].

Lemma via_ref_not_bva j k f :
  (forall r, ~ raises (f r) bad_variant_access) ->
  ~ raises (via_ref j k f) bad_variant_access.
Proof.
  intros Hf H. unfold via_ref in H. raise_cases H; try close_raise H.
  exact (Hf _ H).
Qed.

Lemma for_each_not_bva {A S} (xs : list A) (body : S -> A -> outcome S) s :
  (forall x s0, x ∈ xs -> ~ raises (body s0 x) bad_variant_access) ->
  ~ raises (for_each xs s body) bad_variant_access.
Proof.
  intros Hb H. apply for_each_raises in H as (x & s0 & Hx & H).
  exact (Hb x s0 Hx H).
Qed.

Lemma choice_json_not_bva choice :
  string_or_uint32 choice = true ->
  ~ raises (choice_json choice) bad_variant_access.
Proof.
  unfold string_or_uint32, choice_json. intros Hok H.
  raise_cases H; try close_raise H;
    destruct (choice_value choice); cbn in *; discriminate.
Qed.

(** The choice loop of a subcommand tests every alternative before it reads
    one, so it cannot raise bad_variant_access whatever the choice holds. *)
Lemma subcommand_choice_step_not_bva v choice :
  ~ raises (subcommand_choice_step v choice) bad_variant_access.
Proof.
  unfold subcommand_choice_step. intros H.
  raise_cases H; try close_raise H;
    destruct (choice_value choice); cbn in *; discriminate.
Qed.

Lemma push_back_self_not_bva j k :
  ~ raises (push_back_self j k) bad_variant_access.
Proof.
  unfold push_back_self. intros H. raise_cases H;
    revert H; apply via_ref_not_bva; intros; primitive_not_bva.
Qed.

Lemma subcommand_step_not_bva opt n subcommand :
  ~ raises (subcommand_step opt n subcommand) bad_variant_access.
Proof.
  unfold subcommand_step, subcommand_object. intros H.
  raise_cases H; try close_raise H;
    try (revert H; apply push_back_self_not_bva).
  revert H. apply via_ref_not_bva. intros r.
  apply for_each_not_bva. intros; apply subcommand_choice_step_not_bva.
Qed.

Lemma option_json_not_bva opt :
  forallb string_or_uint32 (opt_choices opt) = true ->
  ~ raises (option_json opt) bad_variant_access.
Proof.
  intros Hok H. unfold option_json in H.
  rewrite forallb_forall in Hok.
  raise_cases H; try close_raise H.
  - revert H. apply for_each_not_bva. intros choice n Hin H.
    raise_cases H.
    + revert H. apply choice_json_not_bva, Hok.
      apply list_elem_of_In, Hin.
    + revert H. apply via_ref_not_bva. intros; primitive_not_bva.
  - revert H. apply for_each_not_bva. intros; apply subcommand_step_not_bva.
Qed.

Lemma build_json_value_not_bva sc with_id :
  top_level_choices_ok sc = true ->
  ~ raises (build_json_value sc with_id) bad_variant_access.
Proof.
  unfold top_level_choices_ok. intros Hok H. unfold build_json_value in H.
  rewrite forallb_forall in Hok.
  raise_cases H; try close_raise H.
  revert H. apply for_each_not_bva. intros opt j Hin H.
  raise_cases H.
  - revert H. apply option_json_not_bva, Hok. apply list_elem_of_In, Hin.
  - revert H. apply via_ref_not_bva. intros; primitive_not_bva.
Qed.

Lemma bind_not_ok_r {A B} (m : outcome A) (f : A -> outcome B) :
  (forall a, is_ok (f a) = false) -> is_ok (m ≫= f) = false.
Proof. intros Hf. destruct m; cbn; [apply Hf | reflexivity]. Qed.

Lemma fmap_is_ok {A B} (g : A -> B) (m : outcome A) :
  is_ok (g <$> m) = is_ok m.
Proof. destruct m; reflexivity. Qed.

Lemma choice_json_stuck choice :
  string_or_uint32 choice = false -> is_ok (choice_json choice) = false.
Proof.
  unfold string_or_uint32, choice_json.
  destruct (choice_value choice); cbn; (discriminate || reflexivity).
Qed.

Lemma option_json_stuck opt choice :
  choice ∈ opt_choices opt -> string_or_uint32 choice = false ->
  is_ok (option_json opt) = false.
Proof.
  intros Hin Hbad. unfold option_json.
  do 4 (apply bind_not_ok_r; intros ?).
  apply bind_not_ok. rewrite (nonempty_elem _ _ Hin).
  apply bind_not_ok_r; intros n.
  apply (for_each_stuck _ _ _ choice Hin). intros s0.
  apply bind_not_ok, choice_json_stuck, Hbad.
Qed.

Lemma build_json_value_stuck sc with_id :
  top_level_choices_ok sc = false ->
  is_ok (build_json_value sc with_id) = false.
Proof.
  unfold top_level_choices_ok. intros H.
  apply forallb_false in H as (opt & Hopt & H).
  apply forallb_false in H as (choice & Hchoice & Hbad).
  unfold build_json_value.
  do 3 (apply bind_not_ok_r; intros ?).
  rewrite (nonempty_elem _ _ Hopt).
  apply bind_not_ok_r; intros j.
  apply (for_each_stuck _ _ _ opt Hopt). intros s0.
  apply bind_not_ok. exact (option_json_stuck opt choice Hchoice Hbad).
Qed.

Lemma build_json_raises dump sc with_id e :
  raises (build_json dump sc with_id) e <->
  raises (build_json_value sc with_id) e.
Proof.
  unfold build_json, raises.
  destruct (build_json_value sc with_id); cbn; split;
    first [ discriminate | intros [= ->]; reflexivity ].
Qed.

(** C8: slashcommand::build_json reads a top-level choice with
    std::get<std::string> unless it holds a uint32_t.  A command with a choice
    holding a bool, or a snowflake, makes it throw std::bad_variant_access;
    when every top-level choice holds a string or a uint32_t it never throws
    that exception; and it returns a string only for such commands. *)
Theorem build_json_bad_variant_access :
  (forall dump with_id,
     raises (build_json dump (Samples.sc_with_choice (cv_bool true)) with_id)
            bad_variant_access) /\
  (forall dump with_id,
     raises (build_json dump (Samples.sc_with_choice (cv_snowflake 42)) with_id)
            bad_variant_access) /\
  (forall dump sc with_id,
     top_level_choices_ok sc = true ->
     ~ raises (build_json dump sc with_id) bad_variant_access) /\
  (forall dump sc with_id,
     is_ok (build_json dump sc with_id) = true ->
     top_level_choices_ok sc = true).
Proof.
  repeat split.
  - intros dump []; apply build_json_raises; vm_compute; reflexivity.
  - intros dump []; apply build_json_raises; vm_compute; reflexivity.
  - intros dump sc with_id Hok H. apply build_json_raises in H.
    exact (build_json_value_not_bva sc with_id Hok H).
  - intros dump sc with_id H.
    destruct (top_level_choices_ok sc) eqn:Hok; [reflexivity |].
    unfold build_json in H. rewrite fmap_is_ok in H.
    rewrite (build_json_value_stuck sc with_id Hok) in H. discriminate H.
Qed.

Lemma build_json_bad_variant_access_witness :
  top_level_choices_ok (Samples.sc_with_choice (cv_uint32 3)) = true /\
  ~ raises (build_json Samples.dump (Samples.sc_with_choice (cv_uint32 3)) true)
           bad_variant_access.
Proof.
  split; [reflexivity |].
  apply (proj1 (proj2 (proj2 build_json_bad_variant_access))).
  reflexivity.
Defined.

(** *** Nested subcommand options *)

Lemma set_JNull k v : set JNull k v = Ok (JObj {[ k := v ]}).
Proof. reflexivity. Qed.

Lemma set_JObj m k v : set (JObj m) k v = Ok (JObj (<[ k := v ]> m)).
Proof. reflexivity. Qed.

Lemma bind_Ok_l {A B} (a : A) (f : A -> outcome B) : Ok a ≫= f = f a.
Proof. reflexivity. Qed.

Ltac run_sets :=
  repeat first [ rewrite set_JNull | rewrite set_JObj | rewrite bind_Ok_l ].

Lemma push_back_self_fresh m k :
  push_back_self (JObj (<[ k := JNull ]> m)) k
  = Ok (JObj (<[ k := JArr [JObj (<[ k := JArr [] ]> m)] ]> m)).
Proof.
  unfold push_back_self, via_ref, at_key. rewrite lookup_insert_eq.
  cbn [default from_option id mbind outcome_bind to_array set].
  rewrite insert_insert_eq, lookup_insert_eq.
  cbn [default from_option id mbind outcome_bind to_array push_back set app].
  rewrite insert_insert_eq. reflexivity.
Qed.

(** The sub-object [o] of a subcommand round carries the enclosing option's
    members, whatever the subcommand is. *)
Lemma subcommand_object_no_choices opt :
  opt_choices opt = [] ->
  subcommand_object opt = Ok (JObj (option_members opt)).
Proof.
  intros Hc. unfold subcommand_object. rewrite Hc. cbn [nonempty].
  run_sets. reflexivity.
Qed.

(** With one nested subcommand and no choices, the entry pushed to the
    nested "options" array is a copy of the enclosing option's own object
    [n] (its "options" member an empty array at that moment), not an object
    of the subcommand. *)
Lemma option_json_one_subcommand opt subcommand :
  opt_choices opt = [] -> opt_options opt = [subcommand] ->
  option_json opt
  = Ok (JObj (<[ "options" :=
                  JArr [JObj (<[ "options" := JArr [] ]> (option_members opt))] ]>
                (option_members opt))).
Proof.
  intros Hc Ho. unfold option_json. rewrite Hc, Ho. cbn [nonempty].
  run_sets. cbn [for_each]. unfold subcommand_step.
  rewrite (subcommand_object_no_choices opt Hc), bind_Ok_l.
  fold (option_members opt).
  rewrite push_back_self_fresh. reflexivity.
Qed.

(** C2 (evaluation of the code): for the command "cmd" whose option "parent"
    nests the subcommand option "child", build_json emits one option object
    [n], named "parent", whose nested "options" array holds one entry; that
    entry is named "parent" and carries the parent's description, type and
    required flag, with an empty "options" array of its own: it is a copy of
    [n], and nothing of "child" is emitted. *)
Theorem build_json_nested_subcommand_entry :
  exists j n entry,
    build_json_value Samples.sc_nested false = Ok j /\
    find j "options" = Some (JArr [n]) /\
    option_json Samples.parent = Ok n /\
    find n "options" = Some (JArr [entry]) /\
    find entry "name" = Some (JStr "parent") /\
    find entry "description" = Some (JStr "the enclosing one") /\
    find entry "type" = Some (JNum co_sub_command) /\
    find entry "required" = Some (JBool false) /\
    find entry "options" = Some (JArr []) /\
    find entry "name" <> Some (JStr (opt_name Samples.child)) /\
    set n "options" (JArr []) = Ok entry.
Proof.
  eexists _, _, _. split; [vm_compute; reflexivity |].
  split; [vm_compute; reflexivity |].
  split.
  - rewrite (option_json_one_subcommand Samples.parent Samples.child)
      by reflexivity.
    vm_compute. reflexivity.
  - conjuncts; try (vm_compute; reflexivity).
    vm_compute. discriminate.
Qed.

End BuildJson.

(** ** interaction_response *)

Module InteractionResponse.
Import SlashCommand.

Section Props.

Variable message : Type.
Variable message_build_json : message -> string.
Variable message_fill_from_json : message -> json -> message.
Variable json_parse : string -> outcome json.
Variable dump : json -> string.
Variable Int8NotNull : json -> string -> Z.

Lemma ir_build_json_value_eq (r : interaction_response message) mj :
  json_parse (message_build_json (ir_msg r)) = Ok mj ->
  ir_build_json_value message_build_json json_parse r
  = Ok (JObj (<[ "data" := match find mj "channel_id" with
                           | Some _ => erase_key mj "channel_id"
                           | None => mj
                           end ]>
                {[ "type" := JNum (ir_type r) ]})).
Proof.
  intros Hp. unfold ir_build_json_value. rewrite Hp. reflexivity.
Qed.

(** C9: interaction_response::build_json returns the dump of an object
    with exactly two members: "type", the response type, and "data", the
    wrapped message's JSON with its "channel_id" member removed and every
    other member as it was. *)
Theorem ir_build_json_frame (r : interaction_response message) mj :
  json_parse (message_build_json (ir_msg r)) = Ok mj ->
  exists data,
    ir_build_json message_build_json json_parse dump r
    = Ok (dump (JObj (<[ "data" := data ]> {[ "type" := JNum (ir_type r) ]})))
    /\ find data "channel_id" = None
    /\ (forall k, k <> "channel_id" -> find data k = find mj k)
    /\ is_object data = is_object mj
    /\ (is_object mj = false -> data = mj).
Proof.
  intros Hp. unfold ir_build_json.
  rewrite (ir_build_json_value_eq r mj Hp).
  eexists. split; [reflexivity |].
  destruct mj as [| | | | |m]; cbn; try (conjuncts; auto; fail).
  destruct (m !! "channel_id") eqn:Hc; cbn.
  - conjuncts.
    + apply lookup_delete_eq.
    + intros k Hk. apply lookup_delete_ne. congruence.
    + reflexivity.
    + discriminate.
  - conjuncts; auto; discriminate.
Qed.

(** C6 (as the code has it): a deprecated response type, ir_acknowledge
    (2) or ir_channel_message (3), is stored by fill_from_json when the
    JSON carries it, and build_json sends it: the payload it returns has
    that type under "type". *)
Theorem ir_deprecated_types_parsed_and_sent (t : Z) :
  t = ir_acknowledge \/ t = ir_channel_message ->
  (forall (r : interaction_response message) j,
     Int8NotNull j "type" = t ->
     ir_type (ir_fill_from_json message_fill_from_json Int8NotNull r j) = t)
  /\
  (forall (r : interaction_response message) mj,
     ir_type r = t ->
     json_parse (message_build_json (ir_msg r)) = Ok mj ->
     exists v,
       ir_build_json message_build_json json_parse dump r = Ok (dump v)
       /\ find v "type" = Some (JNum t)).
Proof.
  intros _. split.
  - intros r j Ht. exact Ht.
  - intros r mj Ht Hp. unfold ir_build_json.
    rewrite (ir_build_json_value_eq r mj Hp). eexists. split; [reflexivity |].
    cbn [find]. rewrite lookup_insert_ne by discriminate.
    rewrite lookup_singleton_eq, Ht. reflexivity.
Qed.

End Props.

Lemma ir_build_json_frame_witness :
  exists data,
    ir_build_json TestDoubles.message_build_json TestDoubles.json_parse
      Samples.dump Samples.deprecated_response
    = Ok (Samples.dump
            (JObj (<[ "data" := data ]> {[ "type" := JNum ir_acknowledge ]})))
    /\ find data "channel_id" = None
    /\ find data "content" = Some (JStr "pong").
Proof.
  destruct (ir_build_json_frame TestDoubles.message
              TestDoubles.message_build_json TestDoubles.json_parse
              Samples.dump Samples.deprecated_response _ eq_refl)
    as (data & Hb & Hc & Hk & _).
  exists data. split; [exact Hb |]. split; [exact Hc |].
  rewrite Hk by discriminate. reflexivity.
Defined.

Lemma ir_deprecated_types_parsed_and_sent_witness :
  ir_type (ir_fill_from_json TestDoubles.message_fill_from_json
             TestDoubles.Int8NotNull Samples.deprecated_response
             (JObj {[ "type" := JNum 3 ]})) = ir_channel_message.
Proof.
  apply (proj1 (ir_deprecated_types_parsed_and_sent TestDoubles.message
                  TestDoubles.message_build_json
                  TestDoubles.message_fill_from_json TestDoubles.json_parse
                  Samples.dump TestDoubles.Int8NotNull ir_channel_message
                  (or_intror eq_refl))).
  reflexivity.
Defined.

(** C6, the claim as stated fails: build_json does emit a payload for a
    response of type ir_acknowledge, with 2 under "type". *)
Lemma ir_build_json_sends_deprecated_type :
  exists v,
    ir_build_json_value TestDoubles.message_build_json TestDoubles.json_parse
      Samples.deprecated_response = Ok v
    /\ find v "type" = Some (JNum 2)
    /\ is_ok (ir_build_json TestDoubles.message_build_json
                TestDoubles.json_parse Samples.dump
                Samples.deprecated_response) = true.
Proof.
  eexists. split; [reflexivity |]. split; vm_compute; reflexivity.
Qed.

End InteractionResponse.

(** ** interaction::fill_from_json *)

Module InteractionFill.
Import SlashCommand.

Section Props.

Variables guild_member user : Type.
Variable guild_member_new : guild_member.
Variable user_new : user.
Variable guild_member_fill_from_json : guild_member -> json -> guild_member.
Variable user_fill_from_json : user -> json -> user.
Variable SnowflakeNotNull : json -> string -> Z.
Variable StringNotNull : json -> string -> string.
Variable Int8NotNull : json -> string -> Z.
Variable Int32NotNull : json -> string -> Z.
Variable BoolNotNull : json -> string -> bool.
Variable uninit_snowflake : Z.
Variable uninit_uint8 : Z.

Abbreviation fill :=
  (fill_from_json guild_member_new user_new guild_member_fill_from_json
     user_fill_from_json SnowflakeNotNull StringNotNull Int8NotNull
     Int32NotNull BoolNotNull uninit_snowflake uninit_uint8).
Abbreviation command_of :=
  (command_interaction_of SnowflakeNotNull StringNotNull Int8NotNull
     Int32NotNull BoolNotNull uninit_snowflake).
Abbreviation button_of :=
  (button_interaction_of StringNotNull Int8NotNull uninit_uint8).

Lemma for_each_total {A S} (xs : list A) (s : S) (g : S -> A -> S) :
  exists s', for_each xs s (fun acc x => Ok (g acc x)) = Ok s'.
Proof.
  revert s. induction xs as [|x xs IH]; intros s; cbn; eauto.
Qed.

(** Building the command payload never throws. *)
Lemma command_interaction_of_total j :
  exists ci, command_of j = Ok ci.
Proof.
  unfold command_interaction_of.
  destruct (find j "data") as [param|]; [| eauto].
  destruct (find param "options") as [opts|]; cbn; [| eauto].
  destruct (for_each_total (items opts) []
              (fun acc opt =>
                 (acc ++ [command_data_option_of SnowflakeNotNull
                            StringNotNull Int8NotNull Int32NotNull
                            BoolNotNull opt])%list)) as (l & Hl).
  cbn in Hl. rewrite Hl. cbn. eauto.
Qed.

(** The call completes unless a "member" that is neither an object nor null
    makes [m["user"]] throw. *)
Lemma fill_from_json_total (i : interaction guild_member user) j :
  match find j "member" with
  | Some m => is_object m || is_null m = true
  | None => True
  end ->
  exists i', fill i j = Ok i'.
Proof.
  intros Hm. unfold fill_from_json.
  assert (exists p,
    match find j "member" with
    | Some m =>
        mu ← at_key m "user";
        Ok (guild_member_fill_from_json guild_member_new m,
            user_fill_from_json user_new mu)
    | None => Ok (i_member i, i_usr i)
    end = Ok p) as (p & ->).
  { destruct (find j "member") as [m|]; [| eauto].
    destruct m; cbn in *; try discriminate; eauto. }
  destruct p as [member usr]. cbn.
  destruct (Int8NotNull j "type" =? it_application_command).
  - destruct (command_interaction_of_total j) as (ci & ->). cbn. eauto.
  - destruct (Int8NotNull j "type" =? it_component_button); cbn; eauto.
Qed.

(** C7 (as the code has it): after interaction::fill_from_json the type
    is the parsed one; [data] is assigned a command_interaction built from
    the JSON exactly when that type is it_application_command (2), a
    button_interaction built from the JSON exactly when it is
    it_component_button (3), and for every other type, it_ping (1)
    included, nothing is built and [data] is left holding what it held. *)
Theorem fill_from_json_data (i i' : interaction guild_member user) j :
  fill i j = Ok i' ->
  i_type i' = Int8NotNull j "type" /\
  (i_type i' = it_application_command ->
     exists ci, command_of j = Ok ci /\ i_data i' = data_command ci) /\
  (i_type i' = it_component_button ->
     i_data i' = data_button (button_of j)) /\
  (i_type i' <> it_application_command ->
   i_type i' <> it_component_button ->
     i_data i' = i_data i).
Proof.
  unfold fill_from_json. intros H.
  apply bind_Ok in H as ([member usr] & _ & H).
  apply bind_Ok in H as (data & Hd & H).
  injection H as <-. cbn [i_type i_data].
  unfold it_application_command, it_component_button in *.
  destruct (Z.eqb_spec (Int8NotNull j "type") 2) as [E2|N2].
  - apply fmap_Ok in Hd as (ci & Hci & ->).
    conjuncts; [reflexivity | eauto | lia | lia].
  - destruct (Z.eqb_spec (Int8NotNull j "type") 3) as [E3|N3].
    + injection Hd as <-. conjuncts; [reflexivity | lia | reflexivity | lia].
    + injection Hd as <-. conjuncts; [reflexivity | lia | lia | reflexivity].
Qed.

End Props.

Lemma fill_from_json_data_witness :
  Samples.fill Samples.interaction_new Samples.command_json
  = Ok Samples.command_filled /\
  i_type Samples.command_filled = it_application_command /\
  exists ci,
    i_data Samples.command_filled = data_command ci /\ ci_name ci = "blep".
Proof.
  assert (Hi : Samples.fill Samples.interaction_new Samples.command_json
               = Ok Samples.command_filled) by (vm_compute; reflexivity).
  split; [exact Hi |].
  destruct (fill_from_json_data string string "" ""
              TestDoubles.guild_member_fill_from_json
              TestDoubles.user_fill_from_json TestDoubles.SnowflakeNotNull
              TestDoubles.StringNotNull TestDoubles.Int8NotNull
              TestDoubles.Int32NotNull TestDoubles.BoolNotNull 0 0
              Samples.interaction_new Samples.command_filled
              Samples.command_json Hi)
    as (Ht & Hc & _).
  split; [reflexivity |].
  destruct (Hc eq_refl) as (ci & Hci & Hd).
  exists ci. split; [exact Hd |].
  vm_compute in Hci. injection Hci as <-. reflexivity.
Defined.

(** C7, the claim as stated fails: a freshly constructed interaction filled
    from a ping (type 1) holds a command_interaction, the variant's default
    alternative, although the parsed type is not it_application_command. *)
Lemma fill_from_json_ping_holds_command_interaction :
  exists i',
    Samples.fill Samples.interaction_new Samples.ping_json = Ok i' /\
    i_type i' = it_ping /\
    i_type i' <> it_application_command /\
    holds_command_interaction (i_data i') = true.
Proof.
  eexists. split; [vm_compute; reflexivity |].
  conjuncts; [reflexivity | discriminate | reflexivity].
Qed.

End InteractionFill.

(** ** Event decoders *)

Module EventProps.
Import Events.

Section Props.

Variables guild user channel emoji : Type.
Variable user_fill_from_json : user -> json -> user.
Variable SnowflakeNotNull : json -> string -> Z.

Implicit Types (c : cache guild user channel emoji) (client : DiscordClient).

Lemma find_user_is_Some c id :
  is_Some (find_user c id) <-> is_Some (users c !! id).
Proof. unfold find_user. apply fmap_is_Some. Qed.

Lemma find_channel_is_Some c id :
  is_Some (find_channel c id) <-> is_Some (channels c !! id).
Proof. unfold find_channel. apply fmap_is_Some. Qed.

(** A decoder that throws has called no handler: the only call is the
    decoder's last statement. *)
Lemma message_reaction_add_handle_unregistered client c j raw :
  message_reaction_add (dispatch (creator client)) = false ->
  message_reaction_add_handle SnowflakeNotNull client c j raw = Ok [].
Proof. unfold message_reaction_add_handle. intros ->. reflexivity. Qed.

(** C1: on a shard with a message_reaction_add handler registered, for a
    dispatch whose [d] is an object (or null), the decoder calls the handler,
    once, exactly when the reacting user and the reacting channel are found
    in the cache and the message id is not 0; otherwise it returns normally
    without calling it. *)
Theorem message_reaction_add_invoked_iff client c j raw d :
  message_reaction_add (dispatch (creator client)) = true ->
  at_key j "d" = Ok d ->
  is_object d || is_null d = true ->
  exists calls,
    message_reaction_add_handle SnowflakeNotNull client c j raw = Ok calls /\
    ((exists mra, calls = [call_message_reaction_add mra]) <->
       is_Some (find_user c (SnowflakeNotNull d "user_id")) /\
       is_Some (find_channel c (SnowflakeNotNull d "channel_id")) /\
       SnowflakeNotNull d "message_id" <> 0) /\
    ((forall mra, calls <> [call_message_reaction_add mra]) -> calls = []).
Proof.
  intros Hreg Hd Hshape. unfold message_reaction_add_handle.
  rewrite Hreg, Hd. cbn [mbind outcome_bind].
  assert (exists e, at_key d "emoji" = Ok e) as (e & ->).
  { destruct d; try discriminate; cbn; eauto. }
  cbn [mbind outcome_bind].
  destruct (bool_decide (is_Some (find_user c (SnowflakeNotNull d "user_id"))))
    eqn:Hu; cbn [andb].
  2:{ apply bool_decide_eq_false in Hu. eexists. split; [reflexivity |].
      split; [| reflexivity]. split.
      - intros (mra & [=]).
      - intros (H & _). contradiction. }
  apply bool_decide_eq_true in Hu.
  destruct (bool_decide (is_Some (find_channel c (SnowflakeNotNull d "channel_id"))))
    eqn:Hc; cbn [andb].
  2:{ apply bool_decide_eq_false in Hc. eexists. split; [reflexivity |].
      split; [| reflexivity]. split.
      - intros (mra & [=]).
      - intros (_ & H & _). contradiction. }
  apply bool_decide_eq_true in Hc.
  destruct (Z.eqb_spec (SnowflakeNotNull d "message_id") 0) as [E|N];
    cbn [negb]; eexists; (split; [reflexivity |]).
  - split; [| reflexivity]. split.
    + intros (mra & [=]).
    + intros (_ & _ & H). contradiction.
  - split.
    + split; [auto | eauto].
    + intros H. exfalso. eapply H. reflexivity.
Qed.

(** C10: for a USER_UPDATE whose [d.id] is not 0 and is the key of a cached
    user, user_update::handle replaces that cache entry by the result of
    fill_from_json on it, whether or not a handler is registered, and
    calls the handler, if there is one, with a reference to that entry;
    when the id is 0 or the user is not cached, the cache is returned as it
    was and no handler is called. *)
Theorem user_update_handle_cache client c j raw d :
  at_key j "d" = Ok d ->
  (forall u,
     SnowflakeNotNull d "id" <> 0 ->
     users c !! SnowflakeNotNull d "id" = Some u ->
     user_update_handle user_fill_from_json SnowflakeNotNull client c j raw
     = Ok ({| guilds := guilds c;
              users := <[ SnowflakeNotNull d "id" := user_fill_from_json u d ]>
                         (users c);
              channels := channels c;
              emojis := emojis c |},
           if user_update (dispatch (creator client))
           then [call_user_update
                   {| uu_raw_event := raw; uu_from := client;
                      updated := Some (SnowflakeNotNull d "id") |}]
           else [])) /\
  (SnowflakeNotNull d "id" = 0 \/ users c !! SnowflakeNotNull d "id" = None ->
     user_update_handle user_fill_from_json SnowflakeNotNull client c j raw
     = Ok (c, [])).
Proof.
  intros Hd. unfold user_update_handle. rewrite Hd. cbn [mbind outcome_bind].
  split.
  - intros u Hid Hu.
    destruct (Z.eqb_spec (SnowflakeNotNull d "id") 0) as [E|_];
      [contradiction |]. cbn [negb].
    unfold find_user. rewrite Hu. cbn [fmap option_fmap option_map].
    rewrite Hu.
    destruct (user_update (dispatch (creator client))); reflexivity.
  - intros [E | Hnone].
    + rewrite E. reflexivity.
    + destruct (negb (SnowflakeNotNull d "id" =? 0)); [| reflexivity].
      unfold find_user. rewrite Hnone. reflexivity.
Qed.

(** A dispatch that cannot be indexed makes the decoder throw before it
    touches the cache or calls a handler. *)
Lemma user_update_handle_throw client c j raw e :
  at_key j "d" = Throw e ->
  user_update_handle user_fill_from_json SnowflakeNotNull client c j raw
  = Throw e.
Proof. unfold user_update_handle. intros ->. reflexivity. Qed.

End Props.

Lemma message_reaction_add_invoked_iff_witness :
  exists calls,
    message_reaction_add_handle TestDoubles.SnowflakeNotNull Samples.listening
      Samples.sample_cache Samples.reaction_dispatch "raw" = Ok calls /\
    exists mra, calls = [call_message_reaction_add mra].
Proof.
  destruct (message_reaction_add_invoked_iff unit string unit unit
              TestDoubles.SnowflakeNotNull Samples.listening
              Samples.sample_cache Samples.reaction_dispatch "raw"
              Samples.reaction_d eq_refl eq_refl eq_refl)
    as (calls & Hrun & Hiff & _).
  exists calls. split; [exact Hrun |].
  apply Hiff. vm_compute. conjuncts; eauto. discriminate.
Defined.

Lemma user_update_handle_cache_witness :
  exists c',
    user_update_handle TestDoubles.user_fill_from_json
      TestDoubles.SnowflakeNotNull Samples.silent Samples.sample_cache
      Samples.user_dispatch "raw" = Ok (c', []) /\
    users c' !! 5 = Some "new name".
Proof.
  destruct (user_update_handle_cache unit string unit unit
              TestDoubles.user_fill_from_json TestDoubles.SnowflakeNotNull
              Samples.silent Samples.sample_cache Samples.user_dispatch "raw"
              Samples.user_d eq_refl) as (Hhit & _).
  eexists. split.
  - apply (Hhit "old name"); [vm_compute; discriminate | reflexivity].
  - reflexivity.
Defined.

End EventProps.

(** ** Outbound queue, heartbeat tick, voice connections *)

Module ShardProps.
Import Shard.







Section TickProps.

Variable heartbeat_payload : Z -> string.

Lemma send_due_heartbeat_fields now s :
  let s1 := send_due_heartbeat heartbeat_payload now s in
  state s1 = state s /\ heartbeat_interval s1 = heartbeat_interval s /\
  last_heartbeat_ack s1 = last_heartbeat_ack s /\
  reconnects s1 = reconnects s /\
  (last_heartbeat_sent s1 = last_heartbeat_sent s \/
   last_heartbeat_sent s1 = now /\
   heartbeat_interval s <= now - last_heartbeat_sent s).
Proof.
  unfold send_due_heartbeat.
  destruct (Z.leb_spec (heartbeat_interval s) (now - last_heartbeat_sent s));
    cbn; auto 10.
Qed.

(** The tick resets the connection exactly when, after the heartbeat part
    of the tick, the ACK is behind the last heartbeat sent by more than the
    interval. *)
Lemma OneSecondTimer_zombie_iff now s :
  after_hello s = true ->
  let s1 := send_due_heartbeat heartbeat_payload now s in
  OneSecondTimer heartbeat_payload now s
  = if is_zombie s1 then force_reconnect s1 else s1.
Proof. unfold OneSecondTimer. intros ->. reflexivity. Qed.

(** C3: on a one-second tick after HELLO, if the last heartbeat ACK is
    behind the last heartbeat sent by more than heartbeat_interval_ms, the
    tick declares the shard zombied and resets the connection: the shard
    goes to RECONNECTING and the reconnect is counted. *)
Theorem OneSecondTimer_zombie now s :
  after_hello s = true ->
  0 <= heartbeat_interval s ->
  last_heartbeat_ack s < last_heartbeat_sent s - heartbeat_interval s ->
  zombied (OneSecondTimer heartbeat_payload now s) = true /\
  state (OneSecondTimer heartbeat_payload now s) = RECONNECTING /\
  reconnects (OneSecondTimer heartbeat_payload now s) = reconnects s + 1.
Proof.
  intros Hhello Hpos Hlate.
  rewrite (OneSecondTimer_zombie_iff now s Hhello). cbv zeta.
  destruct (send_due_heartbeat_fields now s) as (_ & Hi & Ha & Hr & Hs).
  assert (is_zombie (send_due_heartbeat heartbeat_payload now s) = true)
    as ->.
  { unfold is_zombie. apply Z.ltb_lt. rewrite Hi, Ha.
    destruct Hs as [-> | [-> Hdue]]; lia. }
  cbn. rewrite Hr. auto.
Qed.

End TickProps.

Lemma OneSecondTimer_zombie_witness :
  zombied (OneSecondTimer Samples.heartbeat_payload 5001 Samples.stale_shard)
  = true /\
  state (OneSecondTimer Samples.heartbeat_payload 5001 Samples.stale_shard)
  = RECONNECTING.
Proof.
  destruct (OneSecondTimer_zombie Samples.heartbeat_payload 5001
              Samples.stale_shard eq_refl ltac:(cbn; lia) ltac:(cbn; lia))
    as (Hz & Hs & _).
  split; [exact Hz | exact Hs].
Defined.




End ShardProps.

(** ** slashcommand::build_json in closed form *)

Module BuildJsonShape.
Import SlashCommand Api Loops BuildJson.

Lemma via_ref_push m k l n :
  m !! k = Some (JArr l) ->
  via_ref (JObj m) k (fun o => push_back o n)
  = Ok (JObj (<[ k := JArr ((l ++ [n])%list) ]> m)).
Proof.
  intros Hk. unfold via_ref, at_key. rewrite Hk. reflexivity.
Qed.

Lemma via_ref_push_null m k n :
  m !! k = Some JNull ->
  via_ref (JObj m) k (fun o => push_back o n)
  = Ok (JObj (<[ k := JArr [n] ]> m)).
Proof.
  intros Hk. unfold via_ref, at_key. rewrite Hk. reflexivity.
Qed.

(** A push loop over an array member is the monadic map of its element
    function, appended to what the array held. *)
Lemma for_each_push_acc {A} k m (g : A -> outcome json) xs acc :
  for_each xs (JObj (<[ k := JArr acc ]> m))
    (fun j x => n ← g x; via_ref j k (fun o => push_back o n))
  = ys ← collect g xs; Ok (JObj (<[ k := JArr ((acc ++ ys)%list) ]> m)).
Proof.
  revert acc. induction xs as [|x xs IH]; intros acc; cbn [for_each collect].
  - cbn. rewrite app_nil_r. reflexivity.
  - destruct (g x) as [n|e]; [| reflexivity]. rewrite !bind_Ok_l.
    rewrite (via_ref_push _ k acc n) by apply lookup_insert_eq.
    rewrite bind_Ok_l, insert_insert_eq, IH.
    destruct (collect g xs) as [ys|e]; [| reflexivity].
    rewrite !bind_Ok_l, <- app_assoc. reflexivity.
Qed.

Lemma for_each_push_null {A} k m (g : A -> outcome json) xs :
  nonempty xs = true ->
  for_each xs (JObj (<[ k := JNull ]> m))
    (fun j x => n ← g x; via_ref j k (fun o => push_back o n))
  = ys ← collect g xs; Ok (JObj (<[ k := JArr ys ]> m)).
Proof.
  destruct xs as [|x xs]; [discriminate |]. intros _.
  cbn [for_each collect].
  destruct (g x) as [n|e]; [| reflexivity]. rewrite !bind_Ok_l.
  rewrite (via_ref_push_null _ k n) by apply lookup_insert_eq.
  rewrite bind_Ok_l, insert_insert_eq, for_each_push_acc.
  destruct (collect g xs) as [ys|e]; reflexivity.
Qed.

Lemma collect_ext {A B} (g h : A -> outcome B) xs :
  (forall x, g x = h x) -> collect g xs = collect h xs.
Proof.
  intros E. induction xs as [|x xs IH]; cbn; [reflexivity |].
  rewrite E, IH. reflexivity.
Qed.

Lemma collect_app {A B} (g : A -> outcome B) xs ys :
  collect g ((xs ++ ys)%list)
  = a ← collect g xs; b ← collect g ys; Ok ((a ++ b)%list).
Proof.
  induction xs as [|x xs IH]; cbn [collect app].
  - rewrite bind_Ok_l. destruct (collect g ys); reflexivity.
  - destruct (g x) as [y|e]; [| reflexivity]. rewrite !bind_Ok_l, IH.
    destruct (collect g xs) as [a|e]; [| reflexivity]. rewrite !bind_Ok_l.
    destruct (collect g ys) as [b|e]; reflexivity.
Qed.

Lemma collect_raises {A B} (g : A -> outcome B) xs e :
  raises (collect g xs) e -> exists x, x ∈ xs /\ raises (g x) e.
Proof.
  induction xs as [|x xs IH]; cbn [collect]; intros H.
  - discriminate H.
  - apply raises_bind in H as [H | (y & _ & H)].
    + exists x. split; [left | exact H].
    + apply raises_bind in H as [H | (ys & _ & H)]; [| discriminate H].
      destruct (IH H) as (z & Hz & Hr).
      exists z. split; [right; exact Hz | exact Hr].
Qed.

Lemma collect_is_ok {A B} (g : A -> outcome B) xs :
  is_ok (collect g xs) = forallb (fun x => is_ok (g x)) xs.
Proof.
  induction xs as [|x xs IH]; cbn [collect forallb]; [reflexivity |].
  destruct (g x) as [y|e]; cbn; [| reflexivity].
  rewrite <- IH. destruct (collect g xs); reflexivity.
Qed.

Lemma collect_Ok_Forall2 {A B} (g : A -> outcome B) xs ys :
  collect g xs = Ok ys <-> Forall2 (fun x y => g x = Ok y) xs ys.
Proof.
  revert ys. induction xs as [|x xs IH]; intros ys; cbn [collect].
  - split.
    + intros [= <-]. constructor.
    + intros H. inversion H. reflexivity.
  - split.
    + intros H. apply bind_Ok in H as (y & Hy & H).
      apply bind_Ok in H as (ys' & Hys & [= <-]).
      constructor; [exact Hy | apply IH, Hys].
    + intros H. inversion H as [|? y ? ys' Hy Hys]; subst.
      rewrite Hy, bind_Ok_l. apply IH in Hys. rewrite Hys. reflexivity.
Qed.

(** *** Choices *)

Lemma choice_json_outcome choice :
  choice_json choice
  = if string_or_uint32 choice then Ok (choice_entry choice)
    else Throw bad_variant_access.
Proof.
  unfold choice_json, string_or_uint32, choice_entry.
  destruct (choice_value choice); reflexivity.
Qed.

Lemma collect_choice_json choices :
  collect choice_json choices
  = if forallb string_or_uint32 choices then Ok (choice_entry <$> choices)
    else Throw bad_variant_access.
Proof.
  induction choices as [|c choices IH]; cbn [collect forallb]; [reflexivity |].
  rewrite choice_json_outcome.
  destruct (string_or_uint32 c); [| reflexivity].
  rewrite bind_Ok_l, IH. cbn [andb].
  destruct (forallb string_or_uint32 choices); reflexivity.
Qed.

(** *** Nested options *)

Lemma push_back_self_array m k prev :
  push_back_self (JObj (<[ k := JArr prev ]> m)) k
  = Ok (JObj (<[ k := JArr ((prev ++ [JObj (<[ k := JArr prev ]> m)])%list) ]> m)).
Proof.
  unfold push_back_self, via_ref, at_key. rewrite lookup_insert_eq.
  cbn [default from_option id mbind outcome_bind to_array set].
  rewrite insert_insert_eq, lookup_insert_eq.
  cbn [default from_option id mbind outcome_bind to_array push_back set].
  rewrite insert_insert_eq. reflexivity.
Qed.

Lemma subcommand_step_no_choices opt n sub :
  opt_choices opt = [] ->
  subcommand_step opt n sub = push_back_self n "options".
Proof.
  intros Hc. unfold subcommand_step.
  rewrite (subcommand_object_no_choices opt Hc). reflexivity.
Qed.

Lemma subcommand_loop_array opt base subs k :
  opt_choices opt = [] ->
  for_each subs (JObj (<[ "options" := JArr (self_copies base k) ]> base))
    (subcommand_step opt)
  = Ok (JObj (<[ "options" := JArr (self_copies base (k + length subs)) ]> base)).
Proof.
  intros Hc. revert k. induction subs as [|sub subs IH]; intros k.
  - cbn [for_each length]. rewrite Nat.add_0_r. reflexivity.
  - cbn [for_each length].
    rewrite (subcommand_step_no_choices opt _ sub Hc).
    rewrite push_back_self_array, bind_Ok_l.
    change (self_copies base k ++
            [JObj (<[ "options" := JArr (self_copies base k) ]> base)])%list
      with (self_copies base (S k)).
    rewrite IH. rewrite Nat.add_succ_r. reflexivity.
Qed.

Lemma subcommand_loop_null opt base subs :
  opt_choices opt = [] -> nonempty subs = true ->
  for_each subs (JObj (<[ "options" := JNull ]> base)) (subcommand_step opt)
  = Ok (JObj (<[ "options" := JArr (self_copies base (length subs)) ]> base)).
Proof.
  intros Hc. destruct subs as [|sub subs]; [discriminate |]. intros _.
  cbn [for_each length].
  rewrite (subcommand_step_no_choices opt _ sub Hc).
  rewrite push_back_self_fresh, bind_Ok_l.
  change [JObj (<[ "options" := JArr [] ]> base)]
    with (self_copies base 1).
  rewrite (subcommand_loop_array opt base subs 1 Hc). reflexivity.
Qed.

(** The choice loop of a subcommand turns [v] into an object. *)
Lemma subcommand_choice_step_object v choice :
  indexable v = true ->
  exists mv, subcommand_choice_step v choice = Ok (JObj mv).
Proof.
  unfold subcommand_choice_step. intros Hv.
  destruct v; try discriminate Hv;
    destruct (choice_value choice); cbn; eauto.
Qed.

Lemma subcommand_choice_loop_object choices v :
  indexable v = true -> nonempty choices = true ->
  exists mv, for_each choices v subcommand_choice_step = Ok (JObj mv).
Proof.
  revert v. induction choices as [|c choices IH]; intros v Hv Hne;
    [discriminate |].
  cbn [for_each].
  destruct (subcommand_choice_step_object v c Hv) as (mv & ->).
  rewrite bind_Ok_l. destruct choices as [|c' choices'].
  - cbn. eauto.
  - apply IH; reflexivity.
Qed.

(** With choices, the sub-object of a subcommand round is never completed:
    [v.push_back(o)] is applied to an object. *)
Lemma subcommand_object_with_choices opt :
  nonempty (opt_choices opt) = true ->
  subcommand_object opt = Throw (type_error 308).
Proof.
  intros Hne. unfold subcommand_object. rewrite Hne. run_sets.
  unfold via_ref at 1, at_key. rewrite lookup_insert_eq.
  cbn [default from_option id]. rewrite bind_Ok_l.
  destruct (subcommand_choice_loop_object (opt_choices opt) JNull eq_refl Hne)
    as (mv & ->).
  rewrite bind_Ok_l, set_JObj, bind_Ok_l, insert_insert_eq.
  unfold push_back_self, via_ref, at_key. rewrite lookup_insert_eq.
  reflexivity.
Qed.

(** *** One option *)

Lemma option_json_outcome opt :
  option_json opt = option_outcome opt.
Proof.
  unfold option_json, option_outcome, option_value, option_with_choices.
  run_sets. fold (option_members opt).
  destruct (opt_choices opt) as [|c choices] eqn:Hc.
  - cbn [nonempty forallb negb andb]. rewrite bind_Ok_l.
    destruct (nonempty (opt_options opt)) eqn:Ho; [| reflexivity].
    rewrite set_JObj, bind_Ok_l.
    apply (subcommand_loop_null opt _ _ Hc Ho).
  - cbn [nonempty]. run_sets.
    rewrite for_each_push_null by reflexivity.
    rewrite collect_choice_json.
    destruct (forallb string_or_uint32 (c :: choices)); [| reflexivity].
    cbn [negb andb]. rewrite !bind_Ok_l.
    destruct (opt_options opt) as [|sub subs] eqn:Ho; [reflexivity |].
    cbn [nonempty for_each]. run_sets.
    unfold subcommand_step.
    rewrite subcommand_object_with_choices by (rewrite Hc; reflexivity).
    reflexivity.
Qed.

(** *** The whole command *)

Lemma command_members_no_options sc with_id :
  command_members sc with_id !! "options" = None.
Proof.
  unfold command_members. rewrite !lookup_insert_ne by discriminate.
  destruct with_id; [apply lookup_singleton_ne; discriminate | apply lookup_empty].
Qed.

Lemma build_json_value_collect sc with_id :
  build_json_value sc with_id
  = if nonempty (sc_options sc)
    then ns ← collect option_json (sc_options sc);
         Ok (JObj (<[ "options" := JArr ns ]> (command_members sc with_id)))
    else Ok (JObj (command_members sc with_id)).
Proof.
  unfold build_json_value, command_members.
  destruct with_id; run_sets; rewrite <- ?insert_empty;
    (destruct (nonempty (sc_options sc)) eqn:Ho; [| reflexivity]);
    run_sets; apply for_each_push_null, Ho.
Qed.

(** build_json serialises the options in order: its result is the dump of
    the object holding "id" (when asked for), "name", "description" and, when
    the command has options, the array of the option objects in their order;
    when an option cannot be serialised, the exception of the first such
    option is thrown. *)
Theorem build_json_collect dump sc with_id :
  build_json dump sc with_id
  = dump <$>
      (if nonempty (sc_options sc)
       then ns ← collect option_json (sc_options sc);
            Ok (JObj (<[ "options" := JArr ns ]> (command_members sc with_id)))
       else Ok (JObj (command_members sc with_id))).
Proof.
  unfold build_json. rewrite build_json_value_collect. reflexivity.
Qed.

Lemma forallb_pointwise {A} (f g : A -> bool) l :
  (forall x, f x = g x) -> forallb f l = forallb g l.
Proof.
  intros E. induction l as [|x l IH]; cbn; [reflexivity |].
  rewrite E, IH. reflexivity.
Qed.

Lemma option_json_is_ok opt : is_ok (option_json opt) = option_buildable opt.
Proof.
  rewrite option_json_outcome. unfold option_outcome, option_buildable.
  destruct (forallb string_or_uint32 (opt_choices opt)); cbn [negb andb];
    [| reflexivity].
  destruct (nonempty (opt_choices opt) && nonempty (opt_options opt));
    reflexivity.
Qed.

Lemma build_json_value_is_ok sc with_id :
  is_ok (build_json_value sc with_id) = buildable sc.
Proof.
  unfold buildable. rewrite build_json_value_collect.
  destruct (sc_options sc) as [|opt opts]; [reflexivity |].
  cbn [nonempty].
  transitivity (is_ok (collect option_json (opt :: opts))).
  - destruct (collect option_json (opt :: opts)); reflexivity.
  - rewrite collect_is_ok. apply forallb_pointwise, option_json_is_ok.
Qed.

Lemma build_json_value_exceptions sc with_id e :
  raises (build_json_value sc with_id) e ->
  e = bad_variant_access \/ e = type_error 308.
Proof.
  intros H. unfold raises in H. rewrite build_json_value_collect in H.
  destruct (nonempty (sc_options sc)); [| discriminate H].
  apply raises_bind in H as [H | (ns & _ & H)]; [| discriminate H].
  apply collect_raises in H as (opt & _ & H).
  unfold raises in H. rewrite option_json_outcome in H.
  unfold option_outcome in H.
  destruct (negb (forallb string_or_uint32 (opt_choices opt)));
    [injection H as <-; auto |].
  destruct (nonempty (opt_choices opt) && nonempty (opt_options opt));
    [injection H as <-; auto | discriminate H].
Qed.

(** The object build_json dumps (everything before the final [j.dump()]) is
    built exactly for the commands in which every option has only string or
    uint32_t choices and does not combine choices with nested options; for
    every other command build_json throws before it reaches the dump. *)
Theorem build_json_object_built sc with_id :
  (buildable sc = true <-> exists j, build_json_value sc with_id = Ok j) /\
  (buildable sc = false ->
   forall dump, is_ok (build_json dump sc with_id) = false).
Proof.
  pose proof (build_json_value_is_ok sc with_id) as H.
  split; [split |].
  - intros Hb. rewrite Hb in H.
    destruct (build_json_value sc with_id) as [j|e]; [eauto | discriminate H].
  - intros (j & Hj). rewrite Hj in H. symmetry. exact H.
  - intros Hb dump. unfold build_json. rewrite fmap_is_ok, H. exact Hb.
Qed.

Lemma build_json_object_built_witness :
  buildable MoreSamples.sc_crowded = false /\
  is_ok (build_json Samples.dump MoreSamples.sc_crowded true) = false.
Proof.
  split; [reflexivity |].
  apply (proj2 (build_json_object_built MoreSamples.sc_crowded true)).
  reflexivity.
Defined.

(** An exception raised while build_json builds its object (before the
    final [j.dump()]) is std::bad_variant_access, and then some option has a
    choice that holds neither a string nor a uint32_t, or nlohmann's
    type_error 308, and then some option with string or uint32_t choices has
    both choices and nested options. *)
Theorem build_json_exception_cause sc with_id e :
  build_json_value sc with_id = Throw e ->
  (e = bad_variant_access /\
   exists opt, opt ∈ sc_options sc /\
               forallb string_or_uint32 (opt_choices opt) = false) \/
  (e = type_error 308 /\
   exists opt, opt ∈ sc_options sc /\
               forallb string_or_uint32 (opt_choices opt) = true /\
               nonempty (opt_choices opt) = true /\
               nonempty (opt_options opt) = true).
Proof.
  intros H. rewrite build_json_value_collect in H.
  destruct (nonempty (sc_options sc)); [| discriminate H].
  apply raises_bind in H as [H | (ns & _ & H)]; [| discriminate H].
  apply collect_raises in H as (opt & Hin & H).
  unfold raises in H. rewrite option_json_outcome in H.
  unfold option_outcome in H.
  destruct (forallb string_or_uint32 (opt_choices opt)) eqn:Hc; cbn [negb] in H.
  - destruct (nonempty (opt_choices opt)) eqn:Hn;
      destruct (nonempty (opt_options opt)) eqn:Ho; cbn [andb] in H;
      try discriminate H.
    injection H as <-. right. split; [reflexivity |].
    exists opt. auto.
  - injection H as <-. left. split; [reflexivity |]. exists opt. auto.
Qed.

Lemma build_json_exception_cause_witness :
  build_json_value MoreSamples.sc_crowded false = Throw (type_error 308) /\
  exists opt,
    opt ∈ sc_options MoreSamples.sc_crowded /\
    nonempty (opt_choices opt) = true /\ nonempty (opt_options opt) = true.
Proof.
  assert (H : build_json_value MoreSamples.sc_crowded false
              = Throw (type_error 308)) by (vm_compute; reflexivity).
  split; [exact H |].
  destruct (build_json_exception_cause MoreSamples.sc_crowded false _ H)
    as [([=] & _) | (_ & opt & Hin & _ & Hc & Ho)].
  exists opt. auto.
Defined.

(** An option that has both choices (all strings or uint32_t) and nested
    options makes build_json throw type_error 308, whatever else the command
    holds, as long as its top-level choices are strings or uint32_t. *)
Theorem build_json_choices_with_options dump sc with_id opt :
  top_level_choices_ok sc = true ->
  opt ∈ sc_options sc ->
  nonempty (opt_choices opt) = true ->
  nonempty (opt_options opt) = true ->
  raises (build_json dump sc with_id) (type_error 308).
Proof.
  intros Hok Hin Hc Ho. apply build_json_raises.
  destruct (build_json_value sc with_id) as [s|e] eqn:Hb.
  - exfalso.
    assert (Hb' : is_ok (build_json_value sc with_id) = true)
      by (rewrite Hb; reflexivity).
    rewrite build_json_value_is_ok in Hb'. unfold buildable in Hb'.
    rewrite forallb_forall in Hb'.
    specialize (Hb' opt (proj1 (list_elem_of_In _ _) Hin)).
    unfold option_buildable in Hb'. rewrite Hc, Ho in Hb'.
    rewrite andb_false_r in Hb'. discriminate Hb'.
  - destruct (build_json_value_exceptions sc with_id e Hb) as [-> | ->];
      [| reflexivity].
    exfalso. exact (build_json_value_not_bva sc with_id Hok Hb).
Qed.

Lemma build_json_choices_with_options_witness :
  raises (build_json Samples.dump MoreSamples.sc_crowded true) (type_error 308).
Proof.
  apply (build_json_choices_with_options Samples.dump MoreSamples.sc_crowded
           true MoreSamples.crowded).
  - reflexivity.
  - right. left.
  - reflexivity.
  - reflexivity.
Defined.

(** slashcommand::add_option followed by build_json: the earlier options
    are serialised as before, the new option's object is appended to the
    "options" array (created if the command had none), and nothing else
    changes; exceptions come in the same order. *)
Theorem build_json_add_option sc o with_id :
  build_json_value (add_option sc o) with_id
  = j ← build_json_value sc with_id;
    n ← option_json o;
    set j "options" (JArr ((emitted_options j ++ [n])%list)).
Proof.
  rewrite !build_json_value_collect. unfold add_option; cbn [sc_options].
  change (command_members _ with_id) with (command_members sc with_id).
  assert (Hne : nonempty (sc_options sc ++ [o])%list = true)
    by (destruct (sc_options sc); reflexivity).
  rewrite Hne, collect_app. cbn [collect].
  destruct (sc_options sc) as [|opt opts] eqn:Hopts.
  - cbn [nonempty collect]. rewrite !bind_Ok_l.
    destruct (option_json o) as [n|e]; [| reflexivity].
    rewrite !bind_Ok_l. unfold emitted_options. cbn [find].
    rewrite command_members_no_options. reflexivity.
  - cbn [nonempty].
    destruct (collect option_json (opt :: opts)) as [ns|e]; [| reflexivity].
    rewrite !bind_Ok_l.
    destruct (option_json o) as [n|e]; [| reflexivity].
    rewrite !bind_Ok_l. unfold emitted_options. cbn [find].
    rewrite lookup_insert_eq, set_JObj, insert_insert_eq. reflexivity.
Qed.

(** [with_id] only adds the "id" member, the id in decimal as a string:
    everything else build_json emits, and every exception, is the same. *)
Theorem build_json_with_id sc :
  build_json_value sc true
  = j ← build_json_value sc false;
    set j "id" (JStr (to_string (sc_id sc))).
Proof.
  rewrite !build_json_value_collect.
  assert (Hm : command_members sc true
               = <[ "id" := JStr (to_string (sc_id sc)) ]>
                   (command_members sc false)).
  { unfold command_members. rewrite <- insert_empty.
    rewrite (insert_insert_ne _ "id" "description") by discriminate.
    rewrite (insert_insert_ne _ "id" "name") by discriminate.
    reflexivity. }
  destruct (nonempty (sc_options sc)).
  - destruct (collect option_json (sc_options sc)) as [ns|e]; [| reflexivity].
    rewrite !bind_Ok_l, set_JObj, Hm.
    rewrite (insert_insert_ne _ "id" "options") by discriminate. reflexivity.
  - rewrite bind_Ok_l, set_JObj, Hm. reflexivity.
Qed.

(** What a successful build_json emits at the top level: "name" and
    "description" as strings, "id" exactly when asked for, "options"
    exactly when the command has options, and no other member (in
    particular never the application id). *)
Theorem build_json_members sc with_id j :
  build_json_value sc with_id = Ok j ->
  find j "name" = Some (JStr (sc_name sc)) /\
  find j "description" = Some (JStr (sc_description sc)) /\
  find j "id" = (if with_id then Some (JStr (to_string (sc_id sc))) else None) /\
  (find j "options" = None <-> sc_options sc = []) /\
  (forall k, k <> "id" -> k <> "name" -> k <> "description" ->
             k <> "options" -> find j k = None).
Proof.
  rewrite build_json_value_collect.
  assert (Hn : command_members sc with_id !! "name" = Some (JStr (sc_name sc))).
  { unfold command_members. rewrite lookup_insert_ne by discriminate.
    apply lookup_insert_eq. }
  assert (Hd : command_members sc with_id !! "description"
               = Some (JStr (sc_description sc))).
  { unfold command_members. apply lookup_insert_eq. }
  assert (Hi : command_members sc with_id !! "id"
               = if with_id then Some (JStr (to_string (sc_id sc))) else None).
  { unfold command_members. rewrite !lookup_insert_ne by discriminate.
    destruct with_id; [apply lookup_singleton_eq | apply lookup_empty]. }
  assert (Hk : forall k, k <> "id" -> k <> "name" -> k <> "description" ->
                 command_members sc with_id !! k = None).
  { intros k H1 H2 H3. unfold command_members.
    rewrite !lookup_insert_ne by congruence.
    destruct with_id; [apply lookup_singleton_ne; congruence | apply lookup_empty]. }
  destruct (sc_options sc) as [|opt opts]; cbn [nonempty].
  - intros [= <-]. cbn [find]. conjuncts; auto.
    split; [reflexivity | intros _; apply command_members_no_options].
  - intros H. apply bind_Ok in H as (ns & _ & [= <-]). cbn [find].
    rewrite !lookup_insert_ne by discriminate. conjuncts; auto.
    + rewrite lookup_insert_eq. split; discriminate.
    + intros k H1 H2 H3 H4. rewrite lookup_insert_ne by congruence. auto.
Qed.

Lemma build_json_members_witness :
  exists j,
    build_json_value MoreSamples.sc_colour true = Ok j /\
    find j "name" = Some (JStr "paint") /\
    find j "id" = Some (JStr "7") /\
    find j "application_id" = None.
Proof.
  assert (Hok : is_ok (build_json_value MoreSamples.sc_colour true) = true)
    by (vm_compute; reflexivity).
  destruct (build_json_value MoreSamples.sc_colour true) as [j|] eqn:Hj;
    [| discriminate Hok].
  destruct (build_json_members MoreSamples.sc_colour true j Hj)
    as (Hn & _ & Hi & _ & Hk).
  exists j. conjuncts; [reflexivity | exact Hn | exact Hi |].
  apply Hk; discriminate.
Defined.

(** An option without nested options whose choices hold strings or
    uint32_t values is always serialised: the object has "name",
    "description", "type" and "required", a "choices" array with one
    {name, value} entry per choice in their order exactly when there are
    choices, and no "options" member. *)
Theorem option_json_choices opt :
  opt_options opt = [] ->
  forallb string_or_uint32 (opt_choices opt) = true ->
  exists n,
    option_json opt = Ok n /\
    find n "name" = Some (JStr (opt_name opt)) /\
    find n "description" = Some (JStr (opt_description opt)) /\
    find n "type" = Some (JNum (opt_type opt)) /\
    find n "required" = Some (JBool (opt_required opt)) /\
    find n "choices"
    = (if nonempty (opt_choices opt)
       then Some (JArr (choice_entry <$> opt_choices opt)) else None) /\
    find n "options" = None.
Proof.
  intros Ho Hc. rewrite option_json_outcome.
  unfold option_outcome, option_value, option_with_choices.
  rewrite Hc, Ho. cbn [negb nonempty andb]. rewrite andb_false_r.
  eexists. split; [reflexivity |]. cbn [find].
  destruct (nonempty (opt_choices opt)); unfold option_members;
    conjuncts;
    repeat first [ rewrite lookup_insert_eq
                 | rewrite lookup_insert_ne by discriminate
                 | rewrite lookup_singleton_eq
                 | rewrite lookup_singleton_ne by discriminate ];
    reflexivity.
Qed.

Lemma option_json_choices_witness :
  exists n,
    option_json MoreSamples.colour = Ok n /\
    find n "choices"
    = Some (JArr [ JObj {[ "name" := JStr "red"; "value" := JStr "r" ]};
                   JObj {[ "name" := JStr "seven"; "value" := JNum 7 ]} ]).
Proof.
  destruct (option_json_choices MoreSamples.colour eq_refl eq_refl)
    as (n & Hn & _ & _ & _ & _ & Hc & _).
  exists n. split; [exact Hn |]. rewrite Hc. vm_compute. reflexivity.
Defined.

(** The nested options of an option reach the output only through their
    number: two options that differ only in what their nested options are,
    not in how many there are, are serialised alike. *)
Theorem option_json_nested_count t n d r choices subs1 subs2 :
  length subs1 = length subs2 ->
  option_json (mk_command_option t n d r choices subs1)
  = option_json (mk_command_option t n d r choices subs2).
Proof.
  intros Hlen. rewrite !option_json_outcome.
  unfold option_outcome, option_value, option_with_choices, option_members.
  cbn [opt_type opt_name opt_description opt_required opt_choices opt_options].
  rewrite Hlen.
  assert (Hne : nonempty subs1 = nonempty subs2)
    by (destruct subs1, subs2; try discriminate Hlen; reflexivity).
  rewrite Hne. reflexivity.
Qed.

Lemma option_json_nested_count_witness :
  option_json (mk_command_option co_sub_command "parent" "the enclosing one"
                 false [] [Samples.child])
  = option_json (mk_command_option co_sub_command "parent" "the enclosing one"
                   false [] [MoreSamples.colour]).
Proof.
  apply option_json_nested_count. reflexivity.
Defined.

End BuildJsonShape.

(** ** interaction::fill_from_json, further *)

Module InteractionFillMore.
Import SlashCommand Api.

Section Props.

Variables guild_member user : Type.
Variable guild_member_new : guild_member.
Variable user_new : user.
Variable guild_member_fill_from_json : guild_member -> json -> guild_member.
Variable user_fill_from_json : user -> json -> user.
Variable SnowflakeNotNull : json -> string -> Z.
Variable StringNotNull : json -> string -> string.
Variable Int8NotNull : json -> string -> Z.
Variable Int32NotNull : json -> string -> Z.
Variable BoolNotNull : json -> string -> bool.
Variable uninit_snowflake : Z.
Variable uninit_uint8 : Z.

Abbreviation fill :=
  (fill_from_json guild_member_new user_new guild_member_fill_from_json
     user_fill_from_json SnowflakeNotNull StringNotNull Int8NotNull
     Int32NotNull BoolNotNull uninit_snowflake uninit_uint8).
Abbreviation command_of :=
  (command_interaction_of SnowflakeNotNull StringNotNull Int8NotNull
     Int32NotNull BoolNotNull uninit_snowflake).
Abbreviation option_of :=
  (command_data_option_of SnowflakeNotNull StringNotNull Int8NotNull
     Int32NotNull BoolNotNull).

Implicit Types i : interaction guild_member user.

Lemma at_key_indexable m k :
  at_key m k = if indexable m then Ok (default JNull (find m k))
               else Throw (type_error 305).
Proof. destruct m; reflexivity. Qed.

(** What the uninitialised locals hold may differ from one call to the
    next. *)
Variable uninit_snowflake' : Z.
Variable uninit_uint8' : Z.

Abbreviation fill_again :=
  (fill_from_json guild_member_new user_new guild_member_fill_from_json
     user_fill_from_json SnowflakeNotNull StringNotNull Int8NotNull
     Int32NotNull BoolNotNull uninit_snowflake' uninit_uint8').

(** Filling an interaction again from the same JSON gives the interaction
    the first call gave, when the first call leaves the JSON as it was (a
    "member", if present, already has a "user" for [m["user"]] to find) and
    the payload is read from the JSON (a type 2 or 3 comes with "data", so
    that no uninitialised local is kept). *)
Theorem fill_from_json_idempotent i i' j :
  (forall m, find j "member" = Some m -> is_Some (find m "user")) ->
  (Int8NotNull j "type" = it_application_command \/
   Int8NotNull j "type" = it_component_button -> is_Some (find j "data")) ->
  fill i j = Ok i' -> fill_again i' j = Ok i'.
Proof.
  unfold fill_from_json. intros _ Hdata H.
  apply bind_Ok in H as ([member usr] & Hp & H).
  apply bind_Ok in H as (data & Hd & H).
  injection H as <-. cbn [i_member i_usr i_data].
  assert (Hp' : match find j "member" with
                | Some m =>
                    mu ← at_key m "user";
                    Ok (guild_member_fill_from_json guild_member_new m,
                        user_fill_from_json user_new mu)
                | None =>
                    Ok (member,
                        match find j "user" with
                        | Some u => user_fill_from_json user_new u
                        | None => usr
                        end)
                end
                = Ok (member,
                      match find j "member" with
                      | Some _ => usr
                      | None =>
                          match find j "user" with
                          | Some u => user_fill_from_json user_new u
                          | None => usr
                          end
                      end)).
  { destruct (find j "member") as [m|]; [exact Hp | reflexivity]. }
  rewrite Hp'. cbn [mbind outcome_bind].
  assert (Hu : match find j "user" with
               | Some u => user_fill_from_json user_new u
               | None =>
                   match find j "member" with
                   | Some _ => usr
                   | None =>
                       match find j "user" with
                       | Some u => user_fill_from_json user_new u
                       | None => usr
                       end
                   end
               end
               = match find j "user" with
                 | Some u => user_fill_from_json user_new u
                 | None => usr
                 end)
    by (destruct (find j "user"), (find j "member"); reflexivity).
  rewrite Hu.
  unfold it_application_command, it_component_button in *.
  destruct (Z.eqb_spec (Int8NotNull j "type") 2) as [E2|N2].
  - destruct (Hdata (or_introl E2)) as (param & Hparam).
    unfold command_interaction_of in Hd |- *. rewrite Hparam in Hd |- *.
    cbn [ci_options] in Hd |- *. rewrite Hd. reflexivity.
  - destruct (Z.eqb_spec (Int8NotNull j "type") 3) as [E3|N3].
    + destruct (Hdata (or_intror E3)) as (param & Hparam).
      unfold button_interaction_of in Hd |- *. rewrite Hparam in Hd |- *.
      rewrite Hd. reflexivity.
    + injection Hd as <-. reflexivity.
Qed.

(** The call fails exactly when the JSON has a "member" that is neither an
    object nor null, and then with nlohmann's type_error 305 (from
    [m["user"]]). *)
Theorem fill_from_json_throws i j e :
  fill i j = Throw e <->
  e = type_error 305 /\
  exists m, find j "member" = Some m /\ indexable m = false.
Proof.
  split.
  - intros H.
    destruct (find j "member") as [m|] eqn:Hm.
    + destruct (indexable m) eqn:Hi.
      * exfalso.
        destruct (InteractionFill.fill_from_json_total _ _ guild_member_new
                    user_new guild_member_fill_from_json user_fill_from_json
                    SnowflakeNotNull StringNotNull Int8NotNull Int32NotNull
                    BoolNotNull uninit_snowflake uninit_uint8 i j) as (i' & Hi').
        { rewrite Hm. exact Hi. }
        rewrite Hi' in H. discriminate H.
      * unfold fill_from_json in H. rewrite Hm, at_key_indexable, Hi in H.
        cbn in H. injection H as <-. eauto.
    + exfalso.
      destruct (InteractionFill.fill_from_json_total _ _ guild_member_new
                  user_new guild_member_fill_from_json user_fill_from_json
                  SnowflakeNotNull StringNotNull Int8NotNull Int32NotNull
                  BoolNotNull uninit_snowflake uninit_uint8 i j) as (i' & Hi').
      { rewrite Hm. exact I. }
      rewrite Hi' in H. discriminate H.
  - intros (-> & m & Hm & Hi). unfold fill_from_json.
    rewrite Hm, at_key_indexable, Hi. reflexivity.
Qed.

(** Where the member and the user come from: the member from "member" when
    present; the user from the top-level "user" when present, else from
    "member"."user" (null when the member has none), else both stay as they
    were. *)
Theorem fill_from_json_member_user i i' j :
  fill i j = Ok i' ->
  i_member i'
  = match find j "member" with
    | Some m => guild_member_fill_from_json guild_member_new m
    | None => i_member i
    end /\
  i_usr i'
  = match find j "user", find j "member" with
    | Some u, _ => user_fill_from_json user_new u
    | None, Some m =>
        user_fill_from_json user_new (default JNull (find m "user"))
    | None, None => i_usr i
    end.
Proof.
  unfold fill_from_json. intros H.
  apply bind_Ok in H as ([member usr] & Hp & H).
  apply bind_Ok in H as (data & _ & H).
  injection H as <-. cbn [i_member i_usr].
  destruct (find j "member") as [m|].
  - rewrite at_key_indexable in Hp. destruct (indexable m); [| discriminate Hp].
    cbn in Hp. injection Hp as <- <-.
    destruct (find j "user"); split; reflexivity.
  - injection Hp as <- <-. destruct (find j "user"); split; reflexivity.
Qed.

Lemma for_each_snoc {A B} (f : A -> B) xs acc :
  for_each xs acc (fun acc x => Ok ((acc ++ [f x])%list))
  = Ok ((acc ++ (f <$> xs))%list).
Proof.
  revert acc. induction xs as [|x xs IH]; intros acc; cbn [for_each].
  - cbn. rewrite app_nil_r. reflexivity.
  - cbn [mbind outcome_bind]. rewrite IH. cbn [fmap list_fmap].
    rewrite <- app_assoc. reflexivity.
Qed.

Lemma option_of_fits opt :
  value_fits_type (option_of opt) = true /\ cdo_options (option_of opt) = [].
Proof.
  split; [| reflexivity].
  unfold value_fits_type, command_data_option_of. cbn [cdo_type cdo_value].
  destruct (Int8NotNull opt "type" =? co_boolean); [reflexivity |].
  destruct ((Int8NotNull opt "type" =? co_channel)
            || (Int8NotNull opt "type" =? co_role)
            || (Int8NotNull opt "type" =? co_user)); [reflexivity |].
  destruct (Int8NotNull opt "type" =? co_integer); [reflexivity |].
  destruct (Int8NotNull opt "type" =? co_string); reflexivity.
Qed.

(** The parameters of an application command are decoded one per element of
    "data"."options", in order (none when either is missing).  Each holds the
    alternative its type calls for: a bool for co_boolean, a snowflake for
    co_user, co_channel and co_role, a uint32_t for co_integer, a string for
    co_string, and the empty string for any other type; the nested
    parameters of a sub-command are never decoded. *)
Theorem fill_from_json_parameters i i' j :
  fill i j = Ok i' ->
  i_type i' = it_application_command ->
  exists ci,
    i_data i' = data_command ci /\
    ci_options ci
    = option_of <$> match find j "data" with
                    | Some param =>
                        match find param "options" with
                        | Some opts => items opts
                        | None => []
                        end
                    | None => []
                    end /\
    Forall (fun o => value_fits_type o = true /\ cdo_options o = [])
           (ci_options ci).
Proof.
  unfold fill_from_json. intros H Ht.
  apply bind_Ok in H as ([member usr] & _ & H).
  apply bind_Ok in H as (data & Hd & H).
  injection H as <-. cbn [i_type i_data] in *.
  rewrite Ht, Z.eqb_refl in Hd.
  apply fmap_Ok in Hd as (ci & Hci & ->).
  exists ci. split; [reflexivity |].
  assert (Ho : ci_options ci
               = option_of <$> match find j "data" with
                               | Some param =>
                                   match find param "options" with
                                   | Some opts => items opts
                                   | None => []
                                   end
                               | None => []
                               end).
  { unfold command_interaction_of in Hci.
    destruct (find j "data") as [param|]; [| injection Hci as <-; reflexivity].
    destruct (find param "options") as [opts|].
    - cbn [ci_options] in Hci. rewrite for_each_snoc in Hci.
      cbn in Hci. injection Hci as <-. reflexivity.
    - cbn in Hci. injection Hci as <-. reflexivity. }
  split; [exact Ho |]. rewrite Ho.
  apply Forall_fmap, Forall_forall. intros opt _. apply option_of_fits.
Qed.

End Props.

End InteractionFillMore.

Module InteractionFillWitness.
Import SlashCommand Api InteractionFillMore.

Lemma fill_from_json_idempotent_witness :
  Samples.fill Samples.interaction_new MoreSamples.guild_command_json
  = Ok MoreSamples.guild_command_filled /\
  fill_from_json "" "" TestDoubles.guild_member_fill_from_json
    TestDoubles.user_fill_from_json TestDoubles.SnowflakeNotNull
    TestDoubles.StringNotNull TestDoubles.Int8NotNull
    TestDoubles.Int32NotNull TestDoubles.BoolNotNull 111 222
    MoreSamples.guild_command_filled MoreSamples.guild_command_json
  = Ok MoreSamples.guild_command_filled.
Proof.
  assert (H : Samples.fill Samples.interaction_new
                MoreSamples.guild_command_json
              = Ok MoreSamples.guild_command_filled)
    by (vm_compute; reflexivity).
  split; [exact H |].
  apply (fill_from_json_idempotent string string "" ""
           TestDoubles.guild_member_fill_from_json
           TestDoubles.user_fill_from_json TestDoubles.SnowflakeNotNull
           TestDoubles.StringNotNull TestDoubles.Int8NotNull
           TestDoubles.Int32NotNull TestDoubles.BoolNotNull 0 0 111 222
           Samples.interaction_new MoreSamples.guild_command_filled
           MoreSamples.guild_command_json).
  - intros m Hm. vm_compute in Hm. injection Hm as <-.
    vm_compute. eauto.
  - intros _. vm_compute. eauto.
  - exact H.
Defined.

Lemma fill_from_json_member_user_witness :
  i_member MoreSamples.guild_command_filled = "nick" /\
  i_usr MoreSamples.guild_command_filled = "outer".
Proof.
  assert (H : Samples.fill Samples.interaction_new
                MoreSamples.guild_command_json
              = Ok MoreSamples.guild_command_filled)
    by (vm_compute; reflexivity).
  destruct (fill_from_json_member_user string string "" ""
              TestDoubles.guild_member_fill_from_json
              TestDoubles.user_fill_from_json TestDoubles.SnowflakeNotNull
              TestDoubles.StringNotNull TestDoubles.Int8NotNull
              TestDoubles.Int32NotNull TestDoubles.BoolNotNull 0 0
              Samples.interaction_new MoreSamples.guild_command_filled
              MoreSamples.guild_command_json H)
    as (Hm & Hu).
  split; [rewrite Hm | rewrite Hu]; reflexivity.
Defined.

Lemma fill_from_json_parameters_witness :
  exists ci,
    i_data MoreSamples.guild_command_filled = data_command ci /\
    length (ci_options ci) = 2%nat /\
    Forall (fun o => value_fits_type o = true /\ cdo_options o = [])
           (ci_options ci).
Proof.
  assert (H : Samples.fill Samples.interaction_new
                MoreSamples.guild_command_json
              = Ok MoreSamples.guild_command_filled)
    by (vm_compute; reflexivity).
  destruct (fill_from_json_parameters string string "" ""
              TestDoubles.guild_member_fill_from_json
              TestDoubles.user_fill_from_json TestDoubles.SnowflakeNotNull
              TestDoubles.StringNotNull TestDoubles.Int8NotNull
              TestDoubles.Int32NotNull TestDoubles.BoolNotNull 0 0
              Samples.interaction_new MoreSamples.guild_command_filled
              MoreSamples.guild_command_json H
              eq_refl) as (ci & Hd & Ho & Hf).
  exists ci. split; [exact Hd |]. split; [| exact Hf].
  rewrite Ho. reflexivity.
Defined.

End InteractionFillWitness.

(** ** Setters and slashcommand::fill_from_json, seen through build_json *)

Module BuildJsonSetters.
Import SlashCommand Api BuildJson BuildJsonShape.

Lemma command_members_id sc :
  command_members sc true
  = <[ "id" := JStr (to_string (sc_id sc)) ]> (command_members sc false).
Proof.
  unfold command_members. rewrite <- insert_empty.
  rewrite (insert_insert_ne _ "id" "description") by discriminate.
  rewrite (insert_insert_ne _ "id" "name") by discriminate.
  reflexivity.
Qed.

Lemma collect_set_member sc with_id k v :
  k <> "options" ->
  (if nonempty (sc_options sc)
   then ns ← collect option_json (sc_options sc);
        Ok (JObj (<[ "options" := JArr ns ]>
                    (<[ k := v ]> (command_members sc with_id))))
   else Ok (JObj (<[ k := v ]> (command_members sc with_id))))
  = j ← build_json_value sc with_id; set j k v.
Proof.
  intros Hk. rewrite build_json_value_collect.
  destruct (nonempty (sc_options sc)); [| reflexivity].
  destruct (collect option_json (sc_options sc)) as [ns|e]; [| reflexivity].
  rewrite !bind_Ok_l, set_JObj.
  rewrite (insert_insert_ne _ k "options") by exact Hk. reflexivity.
Qed.

(** The setters change one member of what build_json emits and nothing
    else: set_name the "name", set_description the "description";
    set_application_id changes nothing that is emitted. *)
Theorem build_json_setters sc with_id n d a :
  build_json_value (set_application_id sc a) with_id
  = build_json_value sc with_id /\
  build_json_value (set_name sc n) with_id
  = (j ← build_json_value sc with_id; set j "name" (JStr n)) /\
  build_json_value (set_description sc d) with_id
  = (j ← build_json_value sc with_id; set j "description" (JStr d)).
Proof.
  conjuncts.
  - rewrite !build_json_value_collect. reflexivity.
  - rewrite <- (collect_set_member sc with_id "name") by discriminate.
    rewrite build_json_value_collect.
    change (sc_options (set_name sc n)) with (sc_options sc).
    assert (Hm : command_members (set_name sc n) with_id
                 = <[ "name" := JStr n ]> (command_members sc with_id)).
    { unfold command_members. cbn [set_name sc_name sc_description sc_id].
      rewrite (insert_insert_ne _ "name" "description") by discriminate.
      rewrite insert_insert_eq. reflexivity. }
    rewrite Hm. reflexivity.
  - rewrite <- (collect_set_member sc with_id "description") by discriminate.
    rewrite build_json_value_collect.
    change (sc_options (set_description sc d)) with (sc_options sc).
    assert (Hm : command_members (set_description sc d) with_id
                 = <[ "description" := JStr d ]> (command_members sc with_id)).
    { unfold command_members.
      cbn [set_description sc_name sc_description sc_id].
      rewrite insert_insert_eq. reflexivity. }
    rewrite Hm. reflexivity.
Qed.

(** slashcommand::fill_from_json reads the id and nothing else: afterwards
    build_json without id emits what it emitted before, and build_json with
    id emits that plus the id read from the JSON. *)
Theorem build_json_after_fill_from_json
    (SnowflakeNotNull : json -> string -> Z) sc j :
  build_json_value (slashcommand_fill_from_json SnowflakeNotNull sc j) false
  = build_json_value sc false /\
  build_json_value (slashcommand_fill_from_json SnowflakeNotNull sc j) true
  = (j0 ← build_json_value sc false;
     set j0 "id" (JStr (to_string (SnowflakeNotNull j "id")))).
Proof.
  split.
  - rewrite !build_json_value_collect. reflexivity.
  - rewrite <- (collect_set_member sc false "id") by discriminate.
    rewrite build_json_value_collect, command_members_id. reflexivity.
Qed.

Lemma option_members_no_choices opt : option_members opt !! "choices" = None.
Proof.
  unfold option_members. rewrite !lookup_insert_ne by discriminate.
  apply lookup_singleton_ne. discriminate.
Qed.

(** command_option::add_choice followed by build_json, for an option without
    nested options: the earlier choices are serialised as before and the new
    choice's {name, value} entry is appended to the "choices" array (created
    if there was none); a choice that holds a bool or a snowflake makes the
    option fail with std::bad_variant_access. *)
Theorem option_json_add_choice opt choice :
  opt_options opt = [] ->
  option_json (add_choice opt choice)
  = n ← option_json opt;
    entry ← choice_json choice;
    set n "choices" (JArr ((emitted_choices n ++ [entry])%list)).
Proof.
  intros Ho. rewrite !option_json_outcome, choice_json_outcome.
  unfold option_outcome, option_value, option_with_choices, add_choice.
  cbn [opt_choices opt_options opt_type opt_name opt_description opt_required].
  rewrite Ho. cbn [nonempty]. rewrite !andb_false_r.
  assert (Hne : nonempty (opt_choices opt ++ [choice])%list = true)
    by (destruct (opt_choices opt); reflexivity).
  rewrite Hne, forallb_app. cbn [forallb]. rewrite andb_true_r.
  change (option_members (mk_command_option _ _ _ _ _ _))
    with (option_members opt).
  destruct (forallb string_or_uint32 (opt_choices opt)); cbn [negb andb];
    [| reflexivity].
  rewrite bind_Ok_l.
  destruct (string_or_uint32 choice); cbn [negb]; [| reflexivity].
  rewrite bind_Ok_l, fmap_app. unfold emitted_choices.
  destruct (nonempty (opt_choices opt)) eqn:Hc.
  - cbn [find]. rewrite lookup_insert_eq, set_JObj, insert_insert_eq.
    reflexivity.
  - destruct (opt_choices opt); [| discriminate Hc].
    cbn [find]. rewrite option_members_no_choices. reflexivity.
Qed.

Lemma option_json_add_choice_witness :
  opt_options (add_choice (new_command_option co_string "colour" "pick one" true)
                 (new_command_option_choice "red" (cv_string "r"))) = [] /\
  exists n entry,
    option_json (add_choice (new_command_option co_string "colour" "pick one" true)
                   (new_command_option_choice "red" (cv_string "r"))) = Ok n /\
    choice_json (new_command_option_choice "seven" (cv_uint32 7)) = Ok entry /\
    option_json MoreSamples.colour
    = set n "choices" (JArr ((emitted_choices n ++ [entry])%list)).
Proof.
  split; [reflexivity |].
  eexists _, _. split; [vm_compute; reflexivity |].
  split; [vm_compute; reflexivity |].
  unfold MoreSamples.colour.
  rewrite option_json_add_choice by reflexivity.
  vm_compute. reflexivity.
Defined.

End BuildJsonSetters.

(** ** interaction_response::build_json, further *)

Module InteractionResponseMore.
Import SlashCommand Api.

Section Props.

Variable message : Type.
Variable message_build_json : message -> string.
Variable json_parse : string -> outcome json.
Variable dump : json -> string.

Implicit Types r : interaction_response message.

(** build_json throws exactly when parsing the message's own JSON text
    throws, and then the parser's exception; nothing else in it can fail. *)
Theorem ir_build_json_throws r e :
  ir_build_json message_build_json json_parse dump r = Throw e <->
  json_parse (message_build_json (ir_msg r)) = Throw e.
Proof.
  unfold ir_build_json, ir_build_json_value.
  destruct (json_parse (message_build_json (ir_msg r))) as [mj|e'].
  - split; discriminate.
  - split; intros [= ->]; reflexivity.
Qed.

Lemma data_without_channel m :
  match find (JObj m) "channel_id" with
  | Some _ => erase_key (JObj m) "channel_id"
  | None => JObj m
  end = JObj (delete "channel_id" m).
Proof.
  cbn [find erase_key]. destruct (m !! "channel_id") eqn:Hc; [reflexivity |].
  rewrite (delete_id _ _ Hc). reflexivity.
Qed.

(** The channel of the wrapped message does not reach the payload: two
    responses of the same type whose messages serialise to objects that
    agree outside "channel_id" give the same payload. *)
Theorem ir_build_json_channel_blind r1 r2 m1 m2 :
  ir_type r1 = ir_type r2 ->
  json_parse (message_build_json (ir_msg r1)) = Ok (JObj m1) ->
  json_parse (message_build_json (ir_msg r2)) = Ok (JObj m2) ->
  delete "channel_id" m1 = delete "channel_id" m2 ->
  ir_build_json message_build_json json_parse dump r1
  = ir_build_json message_build_json json_parse dump r2.
Proof.
  intros Ht H1 H2 Hd. unfold ir_build_json, ir_build_json_value.
  rewrite H1, H2, Ht. cbn [mbind outcome_bind set].
  rewrite !data_without_channel, Hd. reflexivity.
Qed.

End Props.

Lemma ir_build_json_channel_blind_witness :
  ir_build_json (fun s : string => s) MoreSamples.parse_with_channel
    Samples.dump (MoreSamples.reply_in "9")
  = ir_build_json (fun s : string => s) MoreSamples.parse_with_channel
      Samples.dump (MoreSamples.reply_in "10").
Proof.
  eapply (ir_build_json_channel_blind string (fun s : string => s)
            MoreSamples.parse_with_channel Samples.dump
            (MoreSamples.reply_in "9") (MoreSamples.reply_in "10")).
  - reflexivity.
  - reflexivity.
  - reflexivity.
  - vm_compute. reflexivity.
Defined.

End InteractionResponseMore.

(** ** Event decoders, further *)

Module EventMore.
Import Events Api.

Section Props.

Variables guild user channel emoji : Type.
Variable user_fill_from_json : user -> json -> user.
Variable SnowflakeNotNull : json -> string -> Z.

Implicit Types (c : cache guild user channel emoji) (client : DiscordClient).

Lemma at_key_outcome j k :
  at_key j k = if indexable j then Ok (default JNull (find j k))
               else Throw (type_error 305).
Proof. destruct j; reflexivity. Qed.

(** What message_reaction_add::handle hands to the handler: it makes at
    most one call, only with a handler registered, and the record it passes
    carries the raw event and the shard, a user and a channel that are both
    in the cache, a message id that is not 0, and the guild and the emoji as
    the cache has them (null when it has not). *)
Theorem message_reaction_add_event client c j raw calls :
  message_reaction_add_handle SnowflakeNotNull client c j raw = Ok calls ->
  calls = [] \/
  exists d mra,
    at_key j "d" = Ok d /\
    calls = [call_message_reaction_add mra] /\
    message_reaction_add (dispatch (creator client)) = true /\
    mra_raw_event mra = raw /\ mra_from mra = client /\
    reacting_user mra = Some (SnowflakeNotNull d "user_id") /\
    is_Some (users c !! SnowflakeNotNull d "user_id") /\
    reacting_channel mra = Some (SnowflakeNotNull d "channel_id") /\
    is_Some (channels c !! SnowflakeNotNull d "channel_id") /\
    message_id mra = SnowflakeNotNull d "message_id" /\
    message_id mra <> 0 /\
    reacting_guild mra = find_guild c (SnowflakeNotNull d "guild_id") /\
    reacting_emoji mra
    = find_emoji c (SnowflakeNotNull (default JNull (find d "emoji")) "id").
Proof.
  unfold message_reaction_add_handle.
  destruct (message_reaction_add (dispatch (creator client))) eqn:Hreg;
    [| intros [= <-]; left; reflexivity].
  intros H. apply bind_Ok in H as (d & Hd & H).
  apply bind_Ok in H as (e & He & H).
  rewrite at_key_outcome in He.
  destruct (indexable d); [| discriminate He]. injection He as <-.
  destruct (bool_decide (is_Some (find_user c (SnowflakeNotNull d "user_id"))))
    eqn:Hu; cbn [andb] in H; [| injection H as <-; left; reflexivity].
  destruct (bool_decide
              (is_Some (find_channel c (SnowflakeNotNull d "channel_id"))))
    eqn:Hc; cbn [andb] in H; [| injection H as <-; left; reflexivity].
  destruct (Z.eqb_spec (SnowflakeNotNull d "message_id") 0) as [E|N];
    cbn [negb] in H; injection H as <-; [left; reflexivity |].
  apply bool_decide_eq_true in Hu, Hc.
  unfold find_user in Hu |- *. unfold find_channel in Hc |- *.
  apply fmap_is_Some in Hu, Hc.
  right. eexists d, _. split; [exact Hd |]. split; [reflexivity |].
  cbn [mra_raw_event mra_from reacting_user reacting_channel message_id
       reacting_guild reacting_emoji].
  destruct Hu as [u Hu']. destruct Hc as [ch Hc'].
  rewrite Hu', Hc'. conjuncts; eauto.
Qed.

(** message_reaction_add::handle throws only with a handler registered, and
    then exactly when the dispatch or its "d" is neither an object nor null;
    the exception is nlohmann's type_error 305.  Without a handler it reads
    nothing and returns for every input. *)
Theorem message_reaction_add_throws client c j raw e :
  message_reaction_add_handle SnowflakeNotNull client c j raw = Throw e <->
  message_reaction_add (dispatch (creator client)) = true /\
  e = type_error 305 /\
  (indexable j = false \/
   exists d, at_key j "d" = Ok d /\ indexable d = false).
Proof.
  unfold message_reaction_add_handle.
  destruct (message_reaction_add (dispatch (creator client))).
  2:{ split; [discriminate | intros ([=] & _)]. }
  rewrite (at_key_outcome j "d"). destruct (indexable j) eqn:Hj.
  - cbn [mbind outcome_bind]. rewrite at_key_outcome.
    destruct (indexable (default JNull (find j "d"))) eqn:Hd.
    + cbn [mbind outcome_bind]. split.
      * destruct (_ && _ && _); discriminate.
      * intros (_ & _ & [H | (d & [= <-] & H)]); congruence.
    + cbn [mbind outcome_bind]. split.
      * intros [= <-]. conjuncts; auto. right. eauto.
      * intros (_ & -> & _). reflexivity.
  - cbn [mbind outcome_bind]. split.
    + intros [= <-]. auto.
    + intros (_ & -> & _). reflexivity.
Qed.

(** user_update::handle keeps the rest of the cache: guilds, channels and
    emojis are returned as they were, no user is added or removed, and every
    user other than the one named by [d.id] is unchanged. *)
Theorem user_update_handle_frame client c c' j raw calls :
  user_update_handle user_fill_from_json SnowflakeNotNull client c j raw
  = Ok (c', calls) ->
  guilds c' = guilds c /\ channels c' = channels c /\ emojis c' = emojis c /\
  (forall k, is_Some (users c' !! k) <-> is_Some (users c !! k)) /\
  (forall d k, at_key j "d" = Ok d -> k <> SnowflakeNotNull d "id" ->
               users c' !! k = users c !! k).
Proof.
  unfold user_update_handle. intros H.
  apply bind_Ok in H as (d & Hd & H).
  assert (Hsame : (c', calls) = (c, []) ->
            guilds c' = guilds c /\ channels c' = channels c /\
            emojis c' = emojis c /\
            (forall k, is_Some (users c' !! k) <-> is_Some (users c !! k)) /\
            (forall d k, at_key j "d" = Ok d ->
                         k <> SnowflakeNotNull d "id" ->
                         users c' !! k = users c !! k)).
  { intros [= -> ->]. conjuncts; auto. }
  destruct (negb (SnowflakeNotNull d "id" =? 0));
    [| injection H as H; apply Hsame; congruence].
  unfold find_user in H.
  destruct (users c !! SnowflakeNotNull d "id") as [u|] eqn:Hu;
    cbn [fmap option_fmap option_map] in H;
    [| injection H as H; apply Hsame; congruence].
  rewrite Hu in H.
  assert (Hc' : c' = {| guilds := guilds c;
                        users := <[ SnowflakeNotNull d "id"
                                    := user_fill_from_json u d ]> (users c);
                        channels := channels c; emojis := emojis c |}).
  { destruct (user_update (dispatch (creator client)));
      injection H as <- _; reflexivity. }
  rewrite Hc'. cbn [guilds users channels emojis]. conjuncts; auto.
  - intros k. destruct (decide (k = SnowflakeNotNull d "id")) as [-> | Hk].
    + rewrite lookup_insert_eq, Hu. split; eauto.
    + rewrite lookup_insert_ne by congruence. reflexivity.
  - intros d' k Hd' Hk. rewrite Hd in Hd'. injection Hd' as <-.
    apply lookup_insert_ne. congruence.
Qed.

(** user_update::handle makes at most one call, only with a handler
    registered, and the reference it passes resolves, in the cache it
    leaves, to the user as fill_from_json updated it. *)
Theorem user_update_handle_calls client c c' j raw calls :
  user_update_handle user_fill_from_json SnowflakeNotNull client c j raw
  = Ok (c', calls) ->
  calls = [] \/
  exists d u,
    at_key j "d" = Ok d /\
    user_update (dispatch (creator client)) = true /\
    calls = [call_user_update
               {| uu_raw_event := raw; uu_from := client;
                  updated := Some (SnowflakeNotNull d "id") |}] /\
    SnowflakeNotNull d "id" <> 0 /\
    users c !! SnowflakeNotNull d "id" = Some u /\
    users c' !! SnowflakeNotNull d "id" = Some (user_fill_from_json u d).
Proof.
  unfold user_update_handle. intros H.
  apply bind_Ok in H as (d & Hd & H).
  destruct (Z.eqb_spec (SnowflakeNotNull d "id") 0) as [E|N]; cbn [negb] in H;
    [injection H as _ <-; left; reflexivity |].
  unfold find_user in H.
  destruct (users c !! SnowflakeNotNull d "id") as [u|] eqn:Hu;
    cbn [fmap option_fmap option_map] in H;
    [| injection H as _ <-; left; reflexivity].
  rewrite Hu in H.
  destruct (user_update (dispatch (creator client))) eqn:Hreg;
    injection H as <- <-; [| left; reflexivity].
  right. exists d, u. cbn [users]. rewrite lookup_insert_eq.
  conjuncts; auto.
Qed.

(** user_update::handle reads [j["d"]] before it looks at the handler slot:
    it throws exactly when the dispatch is neither an object nor null, with
    type_error 305, whether or not a handler is registered. *)
Theorem user_update_handle_throws client c j raw e :
  user_update_handle user_fill_from_json SnowflakeNotNull client c j raw
  = Throw e <->
  e = type_error 305 /\ indexable j = false.
Proof.
  unfold user_update_handle. rewrite at_key_outcome.
  destruct (indexable j); cbn [mbind outcome_bind].
  - split; [| intros (_ & [=])].
    destruct (negb _); [| discriminate].
    destruct (find_user c _); [| discriminate].
    destruct (users c !! _); [| discriminate].
    destruct (user_update _); discriminate.
  - split; [intros [= <-]; auto | intros (-> & _); reflexivity].
Qed.

End Props.

Lemma message_reaction_add_event_witness :
  exists mra,
    message_reaction_add_handle TestDoubles.SnowflakeNotNull Samples.listening
      Samples.sample_cache Samples.reaction_dispatch "raw"
    = Ok [call_message_reaction_add mra] /\
    reacting_user mra = Some 5 /\ reacting_guild mra = None.
Proof.
  assert (H : exists mra,
            message_reaction_add_handle TestDoubles.SnowflakeNotNull
              Samples.listening Samples.sample_cache
              Samples.reaction_dispatch "raw"
            = Ok [call_message_reaction_add mra]).
  { eexists. vm_compute. reflexivity. }
  destruct H as (mra & H). exists mra. split; [exact H |].
  destruct (message_reaction_add_event unit string unit unit
              TestDoubles.SnowflakeNotNull Samples.listening
              Samples.sample_cache Samples.reaction_dispatch "raw" _ H)
    as [[=] | (d & mra' & Hd & [= <-] & _ & _ & _ & Hu & _ & _ & _ & _ & _ & Hg & _)].
  vm_compute in Hd. injection Hd as <-.
  split; [rewrite Hu | rewrite Hg]; reflexivity.
Defined.

Lemma user_update_handle_frame_witness :
  exists c',
    user_update_handle TestDoubles.user_fill_from_json
      TestDoubles.SnowflakeNotNull Samples.listening Samples.sample_cache
      Samples.user_dispatch "raw"
    = Ok (c', [call_user_update
                 {| uu_raw_event := "raw"; uu_from := Samples.listening;
                    updated := Some 5 |}]) /\
    channels c' = channels Samples.sample_cache /\
    users c' !! 6 = None.
Proof.
  eexists. split; [vm_compute; reflexivity |].
  match goal with
  | |- channels ?c' = _ /\ _ =>
      destruct (user_update_handle_frame unit string unit unit
                  TestDoubles.user_fill_from_json TestDoubles.SnowflakeNotNull
                  Samples.listening Samples.sample_cache c'
                  Samples.user_dispatch "raw" _
                  ltac:(vm_compute; reflexivity))
        as (_ & Hch & _ & _ & Hk)
  end.
  split; [exact Hch |].
  rewrite (Hk Samples.user_d 6 eq_refl) by (vm_compute; discriminate).
  reflexivity.
Defined.

Lemma user_update_handle_calls_witness :
  exists c' u',
    user_update_handle TestDoubles.user_fill_from_json
      TestDoubles.SnowflakeNotNull Samples.listening Samples.sample_cache
      Samples.user_dispatch "raw"
    = Ok (c', [call_user_update
                 {| uu_raw_event := "raw"; uu_from := Samples.listening;
                    updated := Some 5 |}]) /\
    users c' !! 5 = Some u' /\ u' = "new name".
Proof.
  eexists _, _. split; [vm_compute; reflexivity |].
  match goal with
  | |- users ?c' !! 5 = _ /\ _ =>
      destruct (user_update_handle_calls unit string unit unit
                  TestDoubles.user_fill_from_json TestDoubles.SnowflakeNotNull
                  Samples.listening Samples.sample_cache c'
                  Samples.user_dispatch "raw" _
                  ltac:(vm_compute; reflexivity))
        as [[=] | (d & u & Hd & _ & _ & _ & Hu & Hu')]
  end.
  vm_compute in Hd. injection Hd as <-.
  vm_compute in Hu. injection Hu as <-.
  split; [reflexivity | reflexivity].
Defined.

End EventMore.
